(** * label_videos.py: a shallow embedding and its verification

    The program reads rows (video, label code, start, end, subject, camera)
    and, for each, writes a copy of the video with the label burned onto the
    frames of the time range, or only that range as a clip.  This file embeds
    [sanitize_filename_component], [process_video] and [main] and proves the
    properties of the specification that hold of them, and further properties
    of the code.

    Modelling choices, all taken from the source:
    - a Python [str] is a list of Unicode code points ([pystr]);
    - a Python [float] is an IEEE 754 binary64 value, [spec_float] with
      precision 53 and maximal exponent 1024, multiplied by [SFmul];
    - a Python [int] is [Z];
    - [process_video] runs in a monad that threads the state of the outside
      world (open handles, files written, the log) and may raise;
    - the answers of the operating system and of OpenCV are a parameter
      ([Env]), as are the parts of the Unicode database beyond Latin-1
      ([PyRuntime]);
    - [os.path] is [posixpath];
    - [main] works on a session: the world of [process_video], the
      directories created, and the lines [main] itself logs; the arguments
      [argparse] returns, the rows [csv.reader] yields, what [open] and
      [os.makedirs] do, and the answers of the system while each row is
      processed are parameters ([Args], [Host]). *)

From Stdlib Require Import ZArith NArith Lia Ascii String.
From Stdlib Require Import Floats.SpecFloat.
From stdpp Require Import base option list gmap.

Local Open Scope N_scope.

(** ** Python strings *)

(** A code point; a [str] is a sequence of them. *)
Definition char := N.
Definition pystr := list char.

(** An ASCII literal of the source as a [pystr]. *)
Definition lit (s : string) : pystr := map N_of_ascii (list_ascii_of_string s).

Definition SPACE : char := 32.
Definition DOT : char := 46.
Definition UNDERSCORE : char := 95.
Definition SLASH : char := 47.

(** What the interpreter brings with it: the Unicode database above U+00FF
    (below, the tables are written out) and the limit on the length of a
    decimal literal that [int] converts ([sys.get_int_max_str_digits()],
    0 for no limit). *)
Class PyRuntime := {
  ucd_isalnum : char -> bool;
  ucd_isspace : char -> bool;
  ucd_decimal : char -> option N;
  int_max_str_digits : N
}.

Definition between (lo hi c : N) : bool := (lo <=? c) && (c <=? hi).

(** ASCII letters and digits. *)
Definition ascii_alnum (c : char) : bool :=
  between 48 57 c || between 65 90 c || between 97 122 c.

(** [str.isalnum] on the code points U+0080..U+00FF. *)
Definition latin1_alnum (c : char) : bool :=
  (c =? 170) || (c =? 178) || (c =? 179) || (c =? 181) || (c =? 185) ||
  (c =? 186) || between 188 190 c || between 192 214 c ||
  between 216 246 c || between 248 255 c.

Section Strings.
Context `{PyRuntime}.

(** [c.isalnum()] for a one-character string. *)
Definition isalnum (c : char) : bool :=
  if c <? 128 then ascii_alnum c
  else if c <? 256 then latin1_alnum c
  else ucd_isalnum c.

(** [s.replace(old, new)] for one-character [old] and [new]. *)
Definition replace (old new : char) (s : pystr) : pystr :=
  map (fun c => if c =? old then new else c) s.

(** [c in (' ', '.', '_')] *)
Definition in_kept (c : char) : bool :=
  (c =? SPACE) || (c =? DOT) || (c =? UNDERSCORE).

(** label_videos.py, lines 23-25. *)
Definition sanitize_filename_component (component : pystr) : pystr :=
  replace SPACE UNDERSCORE
    (map (fun c => if isalnum c || in_kept c then c else UNDERSCORE) component).
End Strings.

(** The characters of [[A-Za-z0-9_.]]. *)
Definition in_safe_set (c : char) : bool :=
  ascii_alnum c || (c =? UNDERSCORE) || (c =? DOT).

(** ** [int(str)] *)

(** [Py_ISSPACE], the C-locale white space that [PyLong_FromString] skips. *)
Definition PY_ISSPACE (c : char) : bool := between 9 13 c || (c =? 32).

(** [Py_UNICODE_ISSPACE] on U+007F..U+00FF: NEL and NBSP. *)
Definition latin1_isspace (c : char) : bool := (c =? 133) || (c =? 160).

Definition digit_value (c : char) : option N :=
  if between 48 57 c then Some (c - 48) else None.

Fixpoint skip_space (s : pystr) : pystr :=
  match s with
  | c :: s' => if PY_ISSPACE c then skip_space s' else s
  | [] => []
  end.

(** The digit loop of [PyLong_FromString] in base 10: digits, with single
    underscores between them.  [prev] is the character before, [acc] the
    value so far, [digits] the number of digits read.  [None]: a doubled or a
    trailing underscore.  Otherwise the value, the digit count and what is
    left of the string. *)
Fixpoint scan_digits (s : pystr) (prev : char) (acc digits : N)
  : option (N * N * pystr) :=
  match s with
  | c :: s' =>
      if c =? UNDERSCORE then
        if prev =? UNDERSCORE then None else scan_digits s' c acc digits
      else
        match digit_value c with
        | Some d => scan_digits s' c (10 * acc + d) (digits + 1)
        | None => if prev =? UNDERSCORE then None else Some (acc, digits, s)
        end
  | [] => if prev =? UNDERSCORE then None else Some (acc, digits, [])
  end.

Section IntOfStr.
Context `{PyRuntime}.

(** [_PyUnicode_TransformDecimalAndSpaceToASCII] on one character: ASCII
    stays, other white space becomes a space, other decimal digits become
    ASCII digits; [None] where the C code writes ['?'] and stops, which
    [PyLong_FromString] then refuses. *)
Definition to_ascii (c : char) : option char :=
  if c <? 127 then Some c
  else if (if c <? 256 then latin1_isspace c else ucd_isspace c) then Some SPACE
  else
    match (if c <? 256 then None else ucd_decimal c) with
    | Some d => if d <? 10 then Some (48 + d) else None
    | None => None
    end.

(** [int(s)] for a [str]: [None] stands for [ValueError], the only
    exception it raises. *)
Definition py_int (s : pystr) : option Z :=
  match mapM to_ascii s with
  | None => None
  | Some s1 =>
      let s2 := skip_space s1 in
      let '(neg, s3) :=
        match s2 with
        | 43 :: r => (false, r)
        | 45 :: r => (true, r)
        | _ => (false, s2)
        end in
      match s3 with
      | 95 :: _ => None
      | _ =>
          match scan_digits s3 0 0 0 with
          | None => None
          | Some (n, digits, rest) =>
              if digits =? 0 then None
              else if (640 <? digits) && (0 <? int_max_str_digits)
                      && (int_max_str_digits <? digits) then None
              else
                match skip_space rest with
                | [] => Some (if neg : bool then (- Z.of_N n)%Z else Z.of_N n)
                | _ => None
                end
          end
      end
  end.
End IntOfStr.

(** ** The label table (lines 10-21) *)

Definition LABEL_MAP : gmap Z pystr :=
  list_to_map
    [ (0%Z, lit "walk"); (1%Z, lit "fall"); (2%Z, lit "fallen");
      (3%Z, lit "sit_down"); (4%Z, lit "sitting"); (5%Z, lit "lie_down");
      (6%Z, lit "lying"); (7%Z, lit "stand_up"); (8%Z, lit "standing");
      (9%Z, lit "other") ].

(** ** Floats *)

Definition float := spec_float.
Definition prec : Z := 53.
Definition emax : Z := 1024.

(** [x * y], [x == y], [x <= y] and [x < y] on floats. *)
Definition fmul : float -> float -> float := SFmul prec emax.
Definition feqb : float -> float -> bool := SFeqb.
Definition fleb : float -> float -> bool := SFleb.
Definition fltb : float -> float -> bool := SFltb.

(** The float nearest to [m * 2^e]; [float_of_int n] is what an [int]
    operand of a float operation is converted to. *)
Definition float_of_dyadic (m e : Z) : float := binary_normalize prec emax m e false.
Definition float_of_int (n : Z) : float := float_of_dyadic n 0.

(** The floats of the interpreter: binary64 values. *)
Definition is_binary64 (x : float) : bool := valid_binary prec emax x.

Inductive exn := ValueError | OverflowError.

Inductive result (A : Type) :=
  | Ok (a : A)
  | Raised (e : exn).
Arguments Ok {A} a.
Arguments Raised {A} e.

(** [int(x)] for a float: truncation towards zero; infinities and NaN raise. *)
Definition int_of_float (x : float) : result Z :=
  match x with
  | S754_zero _ => Ok 0%Z
  | S754_infinity _ => Raised OverflowError
  | S754_nan => Raised ValueError
  | S754_finite s m e =>
      let n := Z.shiftl (Z.pos m) e in
      Ok (if s then (- n)%Z else n)
  end.

(** The integer nearest to [n / d] for [d > 0], ties to the even one. *)
Definition round_half_even (n d : Z) : Z :=
  let q := (n / d)%Z in
  match (2 * (n mod d) ?= d)%Z with
  | Lt => q
  | Gt => (q + 1)%Z
  | Eq => if Z.even q then q else (q + 1)%Z
  end.

(** [|x| * 10] rounded to an integer, for [|x| = m * 2^e]. *)
Definition tenths (m : positive) (e : Z) : Z :=
  if (0 <=? e)%Z then (10 * Z.pos m * 2 ^ e)%Z
  else round_half_even (10 * Z.pos m) (2 ^ (- e)).

Fixpoint uint_digits (u : Decimal.uint) : pystr :=
  match u with
  | Decimal.Nil => []
  | Decimal.D0 u => 48 :: uint_digits u
  | Decimal.D1 u => 49 :: uint_digits u
  | Decimal.D2 u => 50 :: uint_digits u
  | Decimal.D3 u => 51 :: uint_digits u
  | Decimal.D4 u => 52 :: uint_digits u
  | Decimal.D5 u => 53 :: uint_digits u
  | Decimal.D6 u => 54 :: uint_digits u
  | Decimal.D7 u => 55 :: uint_digits u
  | Decimal.D8 u => 56 :: uint_digits u
  | Decimal.D9 u => 57 :: uint_digits u
  end.

(** The decimal digits of a natural number. *)
Definition decimal (n : Z) : pystr := uint_digits (N.to_uint (Z.to_N n)).

Definition sign_prefix (s : bool) : pystr := if s then lit "-" else [].

(** [f"{x:.1f}"]: the decimal with one digit after the point nearest to [x],
    ties to even. *)
Definition format_1f (x : float) : pystr :=
  match x with
  | S754_nan => lit "nan"
  | S754_infinity s => sign_prefix s ++ lit "inf"
  | S754_zero s => sign_prefix s ++ lit "0.0"
  | S754_finite s m e =>
      let n := tenths m e in
      sign_prefix s ++ decimal (n / 10) ++ [DOT] ++ decimal (n mod 10)
  end.

(** ** [os.path] (posixpath) *)

(** [s.rfind(c)] for a one-character [c], scanning [s] from index [i] with
    [found] the last match so far. *)
Fixpoint rfind_from (c : char) (s : pystr) (i found : Z) : Z :=
  match s with
  | [] => found
  | x :: s' => rfind_from c s' (i + 1)%Z (if x =? c then i else found)
  end.

Definition rfind (c : char) (s : pystr) : Z := rfind_from c s 0 (-1).

(** [p[i:]], [p[:i]] and [p[i:j]] for [0 <= i <= j]. *)
Definition slice_from (i : Z) (p : pystr) : pystr := drop (Z.to_nat i) p.
Definition slice_to (i : Z) (p : pystr) : pystr := take (Z.to_nat i) p.
Definition slice (i j : Z) (p : pystr) : pystr := slice_from i (slice_to j p).

(** [os.path.basename]: [i = p.rfind('/') + 1; return p[i:]]. *)
Definition basename (p : pystr) : pystr := slice_from (rfind SLASH p + 1) p.

(** [os.path.splitext]: split at the last dot of the last component, unless
    that component has only dots before it. *)
Definition splitext (p : pystr) : pystr * pystr :=
  let sepIndex := rfind SLASH p in
  let dotIndex := rfind DOT p in
  if (sepIndex <? dotIndex)%Z
     && existsb (fun c => negb (c =? DOT)) (slice (sepIndex + 1) dotIndex p)
  then (slice_to dotIndex p, slice_from dotIndex p)
  else (p, []).

(** [os.path.join(a, b)]. *)
Definition path_join (a b : pystr) : pystr :=
  match b with
  | 47 :: _ => b
  | _ =>
      match last a with
      | None | Some 47 => a ++ b
      | Some _ => a ++ [SLASH] ++ b
      end
  end.

(** ** Frames and OpenCV *)

(** One call of [cv2.putText], as its arguments. *)
Record TextDraw := {
  td_text : pystr;
  td_org : Z * Z;
  td_fontFace : Z;
  td_fontScale : Z;
  td_color : Z * Z * Z;
  td_thickness : Z;
  td_lineType : Z
}.

(** A frame buffer: the decoded picture and the text drawn on it since. *)
Record Frame := {
  picture : N;
  drawn : list TextDraw
}.

Definition FONT_HERSHEY_SIMPLEX : Z := 0.
Definition LINE_AA : Z := 16.

(** [cv2.putText(frame, text, org, font, scale, color, thickness, lineType)]
    draws on the buffer in place. *)
Definition putText (frame : Frame) (text : pystr) (org : Z * Z) (fontFace fontScale : Z)
    (color : Z * Z * Z) (thickness lineType : Z) : Frame :=
  {| picture := picture frame;
     drawn := drawn frame ++
       [ {| td_text := text; td_org := org; td_fontFace := fontFace;
            td_fontScale := fontScale; td_color := color;
            td_thickness := thickness; td_lineType := lineType |} ] |}.

(** [cv2.VideoWriter_fourcc(c1, c2, c3, c4)]. *)
Definition VideoWriter_fourcc (c1 c2 c3 c4 : char) : Z :=
  Z.lor (Z.lor (Z.of_N c1) (Z.shiftl (Z.of_N c2) 8))
        (Z.lor (Z.shiftl (Z.of_N c3) 16) (Z.shiftl (Z.of_N c4) 24)).

(** What a capture that opened reports and yields. *)
Record Video := {
  CAP_PROP_FPS : float;
  CAP_PROP_FRAME_WIDTH : float;
  CAP_PROP_FRAME_HEIGHT : float;
  frames : list Frame
}.

(** A file a [VideoWriter] has created. *)
Record VideoFile := {
  vf_fourcc : Z;
  vf_fps : float;
  vf_frameSize : Z * Z;
  vf_frames : list Frame
}.

Definition append_frame (frame : Frame) (f : VideoFile) : VideoFile :=
  {| vf_fourcc := vf_fourcc f; vf_fps := vf_fps f;
     vf_frameSize := vf_frameSize f; vf_frames := vf_frames f ++ [frame] |}.

(** The answers of the operating system and of OpenCV. *)
Record Env := {
  os_path_exists : pystr -> bool;
  (** the video [cv2.VideoCapture(path)] opens, when it opens *)
  capture_opens : pystr -> option Video;
  (** whether [cv2.VideoWriter(path, fourcc, fps, size)] opens *)
  writer_opens : pystr -> Z -> float -> Z * Z -> bool
}.

(** ** Diagnostics *)

Inductive Level := INFO | WARNING | ERROR.

(** The messages of [process_video], each with the values its f-string
    interpolates. *)
Inductive Message :=
  | LabelNotInMap (numeric_label_str label_to_write : pystr)
  | LabelNotInteger (numeric_label_str : pystr)
  | VideoNotFound (video_path : pystr)
  | CouldNotOpenVideo (video_path : pystr)
  | NoFps (video_path : pystr)
  | CouldNotOpenWriter (output_video_path : pystr)
  | Processing (video_path output_video_path : pystr)
  | SavingClipOnly (label_to_write numeric_label_str : pystr) (start_sec end_sec : float)
  | LabelFromTo (label_to_write numeric_label_str : pystr)
      (start_frame : Z) (start_sec : float) (end_frame : Z) (end_sec : float)
  | Saved (output_video_path : pystr)
  | NoFramesWritten (output_video_path : pystr).

(** ** The state of the world and the monad of [process_video] *)

Record World := {
  (** paths of the captures opened and not released, latest first *)
  open_captures : list pystr;
  (** paths of the writers opened and not released, latest first *)
  open_writers : list pystr;
  (** the files writers have created *)
  files : gmap pystr VideoFile;
  (** the log, oldest first *)
  log : list (Level * Message)
}.

Definition M (A : Type) : Type := World -> result A * World.

Definition ret {A} (a : A) : M A := fun w => (Ok a, w).

Definition bind {A B} (m : M A) (k : A -> M B) : M B :=
  fun w =>
    match m w with
    | (Ok a, w') => k a w'
    | (Raised e, w') => (Raised e, w')
    end.

(** A pure computation that may raise. *)
Definition lift {A} (r : result A) : M A := fun w => (r, w).

Notation "'let*' x := c1 'in' c2" := (bind c1 (fun x => c2))
  (at level 10, x name, c1 at level 100, c2 at level 200).
Notation "c1 ;> c2" := (bind c1 (fun _ => c2))
  (at level 200, right associativity).

Definition logging (level : Level) (msg : Message) : M unit :=
  fun w =>
    (Ok tt, {| open_captures := open_captures w; open_writers := open_writers w;
               files := files w; log := log w ++ [(level, msg)] |}).

(** Removes one handle on [p] from a list of open handles. *)
Fixpoint close_handle (p : pystr) (l : list pystr) : list pystr :=
  match l with
  | [] => []
  | q :: l' => if decide (q = p) then l' else q :: close_handle p l'
  end.

(** A [cv2.VideoCapture] object. *)
Record Capture := {
  cap_path : pystr;
  cap_video : option Video
}.

(** A [cv2.VideoWriter] object. *)
Record Writer := {
  out_path : pystr;
  out_opened : bool
}.

Section OpenCV.
Context (env : Env).

Definition VideoCapture (path : pystr) : M Capture :=
  fun w =>
    let cap := {| cap_path := path; cap_video := capture_opens env path |} in
    (Ok cap,
     match capture_opens env path with
     | Some _ =>
         {| open_captures := path :: open_captures w; open_writers := open_writers w;
            files := files w; log := log w |}
     | None => w
     end).

Definition cap_isOpened (cap : Capture) : bool := bool_decide (is_Some (cap_video cap)).

Definition cap_release (cap : Capture) : M unit :=
  fun w =>
    (Ok tt,
     if cap_isOpened cap then
       {| open_captures := close_handle (cap_path cap) (open_captures w);
          open_writers := open_writers w; files := files w; log := log w |}
     else w).

Definition VideoWriter (path : pystr) (fourcc : Z) (fps : float) (frameSize : Z * Z)
  : M Writer :=
  fun w =>
    if writer_opens env path fourcc fps frameSize then
      (Ok {| out_path := path; out_opened := true |},
       {| open_captures := open_captures w; open_writers := path :: open_writers w;
          files := <[ path := {| vf_fourcc := fourcc; vf_fps := fps;
                                 vf_frameSize := frameSize; vf_frames := [] |} ]> (files w);
          log := log w |})
    else (Ok {| out_path := path; out_opened := false |}, w).

Definition out_write (out : Writer) (frame : Frame) : M unit :=
  fun w =>
    (Ok tt,
     if out_opened out then
       {| open_captures := open_captures w; open_writers := open_writers w;
          files := alter (append_frame frame) (out_path out) (files w); log := log w |}
     else w).

Definition out_release (out : Writer) : M unit :=
  fun w =>
    (Ok tt,
     if out_opened out then
       {| open_captures := open_captures w;
          open_writers := close_handle (out_path out) (open_writers w);
          files := files w; log := log w |}
     else w).
End OpenCV.

(** ** [process_video] (lines 27-121) *)

Section ProcessVideo.
Context `{PyRuntime} (env : Env).

(** Lines 33-40: the label to write for the raw label field. *)
Definition resolve_label (numeric_label_str : pystr) : M pystr :=
  match py_int numeric_label_str with
  | Some numeric_label =>
      let label_to_write :=
        default (lit "Unknown_Label_" ++ numeric_label_str) (LABEL_MAP !! numeric_label) in
      (if bool_decide (LABEL_MAP !! numeric_label = None)
       then logging WARNING (LabelNotInMap numeric_label_str label_to_write)
       else ret tt) ;>
      ret label_to_write
  | None =>
      logging WARNING (LabelNotInteger numeric_label_str) ;>
      ret (lit "Invalid_Label_" ++ numeric_label_str)
  end.

(** Lines 59-60: the frame window of a time range. *)
Definition frame_window (start_sec end_sec fps : float) : result (Z * Z) :=
  match int_of_float (fmul start_sec fps) with
  | Raised e => Raised e
  | Ok start_frame =>
      match int_of_float (fmul end_sec fps) with
      | Raised e => Raised e
      | Ok end_frame => Ok (start_frame, end_frame)
      end
  end.

(** Lines 62-68: the path of the output file. *)
Definition output_video_path (video_path label_to_write : pystr) (start_sec end_sec : float)
    (subject cam output_dir : pystr) : pystr :=
  let original_basename := fst (splitext (basename video_path)) in
  let label_sanitized := sanitize_filename_component label_to_write in
  let subject_sanitized := sanitize_filename_component subject in
  let cam_sanitized := sanitize_filename_component cam in
  let output_filename :=
    original_basename ++ lit "_" ++ subject_sanitized ++ lit "_" ++ cam_sanitized
      ++ lit "_" ++ label_sanitized ++ lit "_" ++ format_1f start_sec ++ lit "s_"
      ++ format_1f end_sec ++ lit "s.mp4" in
  path_join output_dir output_filename.

(** Line 93. *)
Definition is_in_labeled_segment (start_frame end_frame frame_idx : Z) : bool :=
  (start_frame <=? frame_idx)%Z && (frame_idx <=? end_frame)%Z.

(** Lines 95-103: the frame buffer after the overlay step. *)
Definition overlay (label_to_write : pystr) (in_segment : bool) (frame : Frame) : Frame :=
  if in_segment then
    putText frame label_to_write (50, 50)%Z FONT_HERSHEY_SIMPLEX 1 (255, 255, 255)%Z 2 LINE_AA
  else frame.

(** Lines 88-113, the loop over the frames [cap.read()] yields until it
    fails.  It returns [frame_idx] and [frames_written] as the loop leaves
    them and, as a ghost value that nothing reads, the frame buffers as
    the body leaves them, in reading order. *)
Fixpoint frame_loop (out : Writer) (label_to_write : pystr) (start_frame end_frame : Z)
    (clip_only : bool) (unread : list Frame) (frame_idx frames_written : Z)
  : M (Z * Z * list Frame) :=
  match unread with
  | [] => ret (frame_idx, frames_written, [])
  | frame :: unread' =>
      let in_segment := is_in_labeled_segment start_frame end_frame frame_idx in
      let frame := overlay label_to_write in_segment frame in
      let* frames_written :=
        (if clip_only then
           if in_segment then out_write out frame ;> ret (frames_written + 1)%Z
           else ret frames_written
         else out_write out frame ;> ret (frames_written + 1)%Z) in
      let* r := frame_loop out label_to_write start_frame end_frame clip_only
                  unread' (frame_idx + 1)%Z frames_written in
      ret (r.1.1, r.1.2, frame :: r.2)
  end.

Definition process_video (video_path numeric_label_str : pystr) (start_sec end_sec : float)
    (subject cam output_dir : pystr) (clip_only : bool) : M unit :=
  let* label_to_write := resolve_label numeric_label_str in
  if negb (os_path_exists env video_path) then
    logging ERROR (VideoNotFound video_path)
  else
    let* cap := VideoCapture env video_path in
    match cap_video cap with
    | None => logging ERROR (CouldNotOpenVideo video_path)
    | Some video =>
        let* fps :=
          (if feqb (CAP_PROP_FPS video) (float_of_int 0)
           then logging ERROR (NoFps video_path) ;> ret (float_of_int 30)
           else ret (CAP_PROP_FPS video)) in
        let* frame_width := lift (int_of_float (CAP_PROP_FRAME_WIDTH video)) in
        let* frame_height := lift (int_of_float (CAP_PROP_FRAME_HEIGHT video)) in
        let* window := lift (frame_window start_sec end_sec fps) in
        let start_frame := window.1 in
        let end_frame := window.2 in
        let output_video_path :=
          output_video_path video_path label_to_write start_sec end_sec
            subject cam output_dir in
        let fourcc := VideoWriter_fourcc 109 112 52 118 in
        let* out := VideoWriter env output_video_path fourcc fps (frame_width, frame_height) in
        if negb (out_opened out) then
          logging ERROR (CouldNotOpenWriter output_video_path) ;>
          cap_release cap
        else
          logging INFO (Processing video_path output_video_path) ;>
          (if clip_only
           then logging INFO (SavingClipOnly label_to_write numeric_label_str start_sec end_sec)
           else logging INFO (LabelFromTo label_to_write numeric_label_str
                                start_frame start_sec end_frame end_sec)) ;>
          let* r := frame_loop out label_to_write start_frame end_frame clip_only
                      (frames video) 0 0 in
          let frames_written := r.1.2 in
          cap_release cap ;>
          out_release out ;>
          if (0 <? frames_written)%Z
          then logging INFO (Saved output_video_path)
          else logging WARNING (NoFramesWritten output_video_path)
    end.
End ProcessVideo.

(** ** Definitions the statements use *)

(** The image of one character under the sanitizer: what is not
    alphanumeric, a space, a dot or an underscore becomes an underscore,
    then a space becomes an underscore. *)
Definition sanitize_char `{PyRuntime} (c : char) : char :=
  if c =? SPACE then UNDERSCORE
  else if isalnum c || in_kept c then c else UNDERSCORE.

(** The tag lines 33-40 choose, and the warnings they log. *)
Definition label_tag `{PyRuntime} (raw : pystr) : pystr :=
  match py_int raw with
  | Some c => default (lit "Unknown_Label_" ++ raw) (LABEL_MAP !! c)
  | None => lit "Invalid_Label_" ++ raw
  end.

Definition label_warnings `{PyRuntime} (raw : pystr) : list (Level * Message) :=
  match py_int raw with
  | Some c =>
      match LABEL_MAP !! c with
      | Some _ => []
      | None => [(WARNING, LabelNotInMap raw (lit "Unknown_Label_" ++ raw))]
      end
  | None => [(WARNING, LabelNotInteger raw)]
  end.

Definition add_log (entries : list (Level * Message)) (w : World) : World :=
  {| open_captures := open_captures w; open_writers := open_writers w;
     files := files w; log := log w ++ entries |}.

Definition append_frames (l : list Frame) (f : VideoFile) : VideoFile :=
  {| vf_fourcc := vf_fourcc f; vf_fps := vf_fps f;
     vf_frameSize := vf_frameSize f; vf_frames := vf_frames f ++ l |}.

Definition write_frames (out : Writer) (l : list Frame) (w : World) : World :=
  if out_opened out then
    {| open_captures := open_captures w; open_writers := open_writers w;
       files := alter (append_frames l) (out_path out) (files w); log := log w |}
  else w.

(** The frame buffers as the loop body leaves them, for frames read from
    index [idx] on. *)
Fixpoint seen_frames (label : pystr) (s e : Z) (fs : list Frame) (idx : Z) : list Frame :=
  match fs with
  | [] => []
  | f :: fs' =>
      overlay label (is_in_labeled_segment s e idx) f :: seen_frames label s e fs' (idx + 1)%Z
  end.

(** Whether the frame of index [idx] goes to the output. *)
Definition emits (s e : Z) (clip_only : bool) (idx : Z) : bool :=
  if clip_only then is_in_labeled_segment s e idx else true.

(** The frames the loop writes, for frames read from index [idx] on. *)
Fixpoint emitted_frames (label : pystr) (s e : Z) (clip_only : bool)
    (fs : list Frame) (idx : Z) : list Frame :=
  match fs with
  | [] => []
  | f :: fs' =>
      (if emits s e clip_only idx
       then [overlay label (is_in_labeled_segment s e idx) f] else [])
      ++ emitted_frames label s e clip_only fs' (idx + 1)%Z
  end.

(** The frame rate lines 51-54 settle on, and the error they log. *)
Definition effective_fps (v : Video) : float :=
  if feqb (CAP_PROP_FPS v) (float_of_int 0) then float_of_int 30 else CAP_PROP_FPS v.

Definition fps_errors (video_path : pystr) (v : Video) : list (Level * Message) :=
  if feqb (CAP_PROP_FPS v) (float_of_int 0) then [(ERROR, NoFps video_path)] else [].

Definition mp4v : Z := VideoWriter_fourcc 109 112 52 118.

(** The Output Namer in the words of the specification:
    [outputDir / "<base>_<subject>_<camera>_<label>_<start>s_<end>s.mp4"]. *)
Definition output_namer (outputDir base subject camera label : pystr)
    (start_sec end_sec : float) : pystr :=
  path_join outputDir
    (base ++ lit "_" ++ subject ++ lit "_" ++ camera ++ lit "_" ++ label ++ lit "_"
       ++ format_1f start_sec ++ lit "s_" ++ format_1f end_sec ++ lit "s.mp4").

(** A float that is a number: a zero or a finite value. *)
Definition is_finite (x : float) : bool :=
  match x with
  | S754_zero _ | S754_finite _ _ _ => true
  | _ => false
  end.

(** What lines 56-60 compute (the frame size and the frame window), or the
    exception they raise. *)
Definition conversions (v : Video) (ss es : float) : result (Z * Z * (Z * Z)) :=
  match int_of_float (CAP_PROP_FRAME_WIDTH v) with
  | Raised x => Raised x
  | Ok fw =>
      match int_of_float (CAP_PROP_FRAME_HEIGHT v) with
      | Raised x => Raised x
      | Ok fh =>
          match frame_window ss es (effective_fps v) with
          | Raised x => Raised x
          | Ok window => Ok (fw, fh, window)
          end
      end
  end.

(** [str] writes [x] with one decimal place: a sign, an integer part, a
    point and one digit, the decimal written being a nearest one to [x]
    among those with one digit after the point. *)
Definition one_decimal (x : float) (str : pystr) : Prop :=
  match x with
  | S754_finite s m e =>
      exists q d : Z,
        str = sign_prefix s ++ decimal q ++ [DOT; 48 + Z.to_N d]
        /\ (0 <= q)%Z /\ (0 <= d <= 9)%Z
        /\ (2 * Z.abs (10 * Z.pos m * 2 ^ Z.max e 0 - (10 * q + d) * 2 ^ Z.max (- e) 0)
            <= 2 ^ Z.max (- e) 0)%Z
  | S754_zero s => str = sign_prefix s ++ lit "0.0"
  | S754_infinity s => str = sign_prefix s ++ lit "inf"
  | S754_nan => str = lit "nan"
  end.

(** ** A world for the examples *)

(** An interpreter for the examples: no code point above U+00FF is a letter,
    a digit or white space, and the limit on digits is the default 4300. *)
Definition latin1_runtime : PyRuntime :=
  {| ucd_isalnum := fun _ => false;
     ucd_isspace := fun _ => false;
     ucd_decimal := fun _ => None;
     int_max_str_digits := 4300 |}.

Definition blank (n : nat) : Frame := {| picture := N.of_nat n; drawn := [] |}.

(** 100 frames at 10 frames per second, 640 by 480. *)
Definition demo_video : Video :=
  {| CAP_PROP_FPS := float_of_int 10;
     CAP_PROP_FRAME_WIDTH := float_of_int 640;
     CAP_PROP_FRAME_HEIGHT := float_of_int 480;
     frames := map blank (seq 0 100) |}.

Definition demo_path : pystr := lit "videos/walk.mp4".

(** Only [demo_path] exists; every writer opens. *)
Definition demo_env : Env :=
  {| os_path_exists := fun p => bool_decide (p = demo_path);
     capture_opens := fun p => if bool_decide (p = demo_path) then Some demo_video else None;
     writer_opens := fun _ _ _ _ => true |}.

Definition empty_world : World :=
  {| open_captures := []; open_writers := []; files := ∅; log := [] |}.

(** ** Rounding, for the statements about the Segment Mapper *)

Local Open Scope Z_scope.

(** The record after [k] shifts of [M]: the quotient, the last bit shifted
    out, and whether a bit shifted out before it was set. *)
Definition shifted (M k : Z) : shr_record :=
  {| shr_m := M / 2 ^ k;
     shr_r := Z.testbit M (k - 1);
     shr_s := negb (M mod 2 ^ Z.max 0 (k - 1) =? 0) |}.

(** For [X = M * 2^(E - L)], the number of low bits rounding drops from
    [X], and the rounded value in units of [2^L]. *)
Definition round_shift (X L : Z) : Z :=
  Z.max 0 (fexp prec emax (Zdigits2 X + L) - L).

Definition round_scaled (X L : Z) : Z :=
  round_half_even X (2 ^ round_shift X L) * 2 ^ round_shift X L.

(** The floor of the value of a float. *)
Definition floor_value (x : float) : Z :=
  match x with
  | S754_finite s m e => (cond_Zopp s (Z.pos m) * 2 ^ Z.max e 0) / 2 ^ Z.max (- e) 0
  | _ => 0
  end.

Definition negative (x : float) : bool :=
  match x with
  | S754_finite s _ _ => s
  | _ => false
  end.

(** [2^1023], about 8.99e307. *)
Definition huge_seconds : float := S754_finite false (2 ^ 52) 971.

Local Close Scope Z_scope.

(** ** [float(str)] *)

(** [_Py_string_to_number_with_underscores]: the string without its
    underscores, each of which has to stand between two digits; [prev] is
    the character before.  [None]: an underscore elsewhere. *)
Fixpoint strip_underscores (s : pystr) (prev : char) : option pystr :=
  match s with
  | [] => if prev =? UNDERSCORE then None else Some []
  | c :: s' =>
      if c =? UNDERSCORE then
        if between 48 57 prev then strip_underscores s' c else None
      else if (prev =? UNDERSCORE) && negb (between 48 57 c) then None
      else cons c <$> strip_underscores s' c
  end.

(** The digits at the head of [s]: their value after [acc], their number
    added to [count], and the rest of [s]. *)
Fixpoint take_digits (s : pystr) (acc count : N) : N * N * pystr :=
  match s with
  | c :: s' =>
      match digit_value c with
      | Some d => take_digits s' (10 * acc + d) (count + 1)
      | None => (acc, count, s)
      end
  | [] => (acc, count, [])
  end.

(** An optional sign at the head of [s]: whether it is a minus, and the
    rest. *)
Definition take_sign (s : pystr) : bool * pystr :=
  match s with
  | 45 :: r => (true, r)
  | 43 :: r => (false, r)
  | _ => (false, s)
  end.

(** The decimal literal at the head of [s], as [_Py_dg_strtod] reads it
    after the sign: digits with at most one point among them, at least one
    digit, and an exponent when [e] or [E] is followed by an optional sign
    and at least one digit.  The result is the integer [D] of all the
    digits, the power of ten [k] such that the literal denotes
    [D * 10^k], and the rest of [s]. *)
Definition take_decimal (s : pystr) : option (N * Z * pystr) :=
  let '(ip, ni, r1) := take_digits s 0 0 in
  let '(D, nf, r2) :=
    match r1 with
    | 46 :: r => take_digits r ip 0
    | _ => (ip, 0, r1)
    end in
  if ni + nf =? 0 then None
  else
    let '(ex, r3) :=
      match r2 with
      | 101 :: r | 69 :: r =>
          let '(neg, r') := take_sign r in
          let '(en, ne, r'') := take_digits r' 0 0 in
          if ne =? 0 then (0%Z, r2)
          else (if neg : bool then (- Z.of_N en)%Z else Z.of_N en, r'')
      | _ => (0%Z, r2)
      end in
    Some (D, (ex - Z.of_N nf)%Z, r3).

(** [Py_TOLOWER]. *)
Definition to_lower (c : char) : char := if between 65 90 c then c + 32 else c.

(** [case_insensitive_match]: the rest of [s] after the lower-case word
    [w], which [s] starts with in whatever case. *)
Fixpoint match_word (w s : pystr) : option pystr :=
  match w, s with
  | [], _ => Some s
  | a :: w', c :: s' => if to_lower c =? a then match_word w' s' else None
  | _ :: _, [] => None
  end.

(** [_Py_parse_inf_or_nan] after the sign. *)
Definition take_inf_or_nan (neg : bool) (s : pystr) : option (float * pystr) :=
  match match_word (lit "inf") s with
  | Some r => Some (S754_infinity neg, default r (match_word (lit "inity") r))
  | None =>
      match match_word (lit "nan") s with
      | Some r => Some (S754_nan, r)
      | None => None
      end
  end.

(** The binary64 value nearest to [(-1)^neg * D * 10^k], ties to even: what
    [_Py_dg_strtod] returns for the literal.  A product is rounded by
    [binary_normalize]; a quotient is computed with enough bits, and the
    position of the remainder, for [binary_round_aux] to round it. *)
Definition decimal_to_float (neg : bool) (D : N) (k : Z) : float :=
  if D =? 0 then S754_zero neg
  else if (0 <=? k)%Z then
    binary_normalize prec emax (cond_Zopp neg (Z.of_N D * 10 ^ k)) 0 neg
  else
    let '(q, e, l) := SFdiv_core_binary prec emax (Z.of_N D) 0 (10 ^ (- k)) 0 in
    binary_round_aux prec emax neg q e l.

(** [s.strip()] for the white space of [Py_ISSPACE]. *)
Definition strip_space (s : pystr) : pystr :=
  reverse (skip_space (reverse (skip_space s))).

Section FloatOfStr.
Context `{PyRuntime}.

(** [float(s)] for a [str]: [None] stands for [ValueError], the only
    exception it raises.  Strings of more than 10^9 digits, which
    [_Py_dg_strtod] refuses, are not distinguished. *)
Definition py_float (s : pystr) : option float :=
  match mapM to_ascii s with
  | None => None
  | Some s1 =>
      match strip_underscores (strip_space s1) 0 with
      | None => None
      | Some s2 =>
          let '(neg, s3) := take_sign s2 in
          match take_decimal s3 with
          | Some (D, k, []) => Some (decimal_to_float neg D k)
          | Some _ => None
          | None =>
              match take_inf_or_nan neg s3 with
              | Some (x, []) => Some x
              | _ => None
              end
          end
      end
  end.
End FloatOfStr.

(** ** [os.path.normpath] (posixpath) *)

(** [s.split(sep)] for a one-character [sep]. *)
Fixpoint split (sep : char) (s : pystr) : list pystr :=
  match s with
  | [] => [[]]
  | c :: s' =>
      if c =? sep then [] :: split sep s'
      else
        match split sep s' with
        | comp :: comps => (c :: comp) :: comps
        | [] => [[c]]
        end
  end.

(** [sep.join(l)]. *)
Fixpoint join (sep : pystr) (l : list pystr) : pystr :=
  match l with
  | [] => []
  | [x] => x
  | x :: l' => x ++ sep ++ join sep l'
  end.

(** The loop of [normpath] over the components: empty ones and ["."] are
    dropped; [".."] removes the component before it, stays when the path is
    relative and nothing or another [".."] is before it, and is dropped at
    the root. *)
Definition normpath_step (initial_slashes : nat) (new_comps : list pystr) (comp : pystr)
  : list pystr :=
  if bool_decide (comp = [] \/ comp = lit ".") then new_comps
  else if negb (bool_decide (comp = lit ".."))
          || (bool_decide (initial_slashes = 0%nat) && bool_decide (new_comps = []))
          || bool_decide (last new_comps = Some (lit ".."))
  then new_comps ++ [comp]
  else removelast new_comps.

Definition normpath (path : pystr) : pystr :=
  match path with
  | [] => lit "."
  | _ =>
      let initial_slashes :=
        match path with
        | 47 :: 47 :: 47 :: _ => 1%nat
        | 47 :: 47 :: _ => 2%nat
        | 47 :: _ => 1%nat
        | _ => 0%nat
        end in
      let comps := split SLASH path in
      let new_comps := fold_left (normpath_step initial_slashes) comps [] in
      let path := repeat SLASH initial_slashes ++ join [SLASH] new_comps in
      match path with
      | [] => lit "."
      | _ => path
      end
  end.

(** ** [main] (lines 124-187) *)

(** What [parser.parse_args()] returns. *)
Record Args := {
  csv_file : pystr;
  output_dir : pystr;
  video_base_dir : option pystr;
  video_suffix : option pystr;
  clip_only : bool
}.

(** [s.startswith(c)] for a one-character [c]. *)
Definition startswith (c : char) (s : pystr) : bool :=
  match s with
  | x :: _ => x =? c
  | [] => false
  end.

(** Lines 154-168: the path handed to [process_video] for the path of a
    row.  An option that is [None] or the empty string is not true. *)
Definition video_path_to_process (args : Args) (path_from_csv : pystr) : pystr :=
  let video_path_to_process := path_from_csv in
  let video_path_to_process :=
    match video_base_dir args with
    | Some (c :: base) => path_join (c :: base) video_path_to_process
    | _ => video_path_to_process
    end in
  let video_path_to_process :=
    match video_suffix args with
    | Some (c :: suffix) =>
        let suffix_to_add := c :: suffix in
        let suffix_to_add :=
          if negb (startswith DOT suffix_to_add)
             && negb (bool_decide (DOT ∈ default [] (last (split SLASH suffix_to_add))))
          then DOT :: suffix_to_add
          else suffix_to_add in
        video_path_to_process ++ suffix_to_add
    | _ => video_path_to_process
    end in
  normpath video_path_to_process.

(** What leaves the body of the inner [try] as an exception: the
    [ValueError] of [float(s)], or what [process_video] raised. *)
Inductive RowError :=
  | CouldNotConvertToFloat (s : pystr)
  | RaisedByProcessVideo (e : exn).

(** The messages of [main], each with the values its f-string
    interpolates. *)
Inductive MainMessage :=
  | CsvFileNotFound (csv_file : pystr)
  | CreatedOutputDirectory (output_dir : pystr)
  | IncorrectNumberOfColumns (row_number len_row : nat) (row : list pystr)
  | InvalidStartEndTimes (row_number : nat) (start_time end_time : float) (row : list pystr)
  | DataConversionError (row_number : nat) (e : RowError) (row : list pystr)
  | UnexpectedError (row_number : nat) (e : RowError) (row : list pystr)
  | FailedToReadCsv (e : pystr).

(** What [open] and [csv.reader] make of the CSV file. *)
Inductive CsvFile :=
  (** [open] raises [FileNotFoundError] *)
  | CsvVanished
  (** [open] raises another exception, of this text *)
  | CsvUnreadable (e : pystr)
  (** the reader yields these rows and then is exhausted or, with [Some e],
      raises an exception of text [e] *)
  | CsvRows (rows : list (list pystr)) (error : option pystr).

(** The machine [main] runs on. *)
Record Host := {
  (** the answers of the system before the rows are read *)
  at_start : Env;
  (** whether [os.makedirs(path)] succeeds *)
  makedirs_succeeds : pystr -> bool;
  csv : CsvFile;
  (** the answers of the system and of OpenCV while the row of index [i]
      is processed *)
  at_row : nat -> Env
}.

(** The state [main] works on. *)
Record Session := {
  (** the state [process_video] works on *)
  world : World;
  (** the directories [os.makedirs] has created, latest first *)
  directories : list pystr;
  (** the lines [main] itself has logged, oldest first, each with the
      number of lines of [log world] that precede it *)
  journal : list (nat * (Level * MainMessage))
}.

Definition main_logging (level : Level) (msg : MainMessage) (s : Session) : Session :=
  {| world := world s; directories := directories s;
     journal := journal s ++ [(length (log (world s)), (level, msg))] |}.

Definition set_world (w : World) (s : Session) : Session :=
  {| world := w; directories := directories s; journal := journal s |}.

Definition makedirs (path : pystr) (s : Session) : Session :=
  {| world := world s; directories := path :: directories s; journal := journal s |}.

(** How the body of the inner [try] ends. *)
Inductive RowExit :=
  | Completed
  | Continue
  | RowRaised (e : RowError).

Section Main.
Context `{PyRuntime}.

(** Lines 148-177, the body of the inner [try], for the row of index [i]. *)
Definition row_body (args : Args) (env : Env) (i : nat) (row : list pystr) (s : Session)
  : RowExit * Session :=
  match row with
  | [path_from_csv; label_text_from_csv; start_str; end_str; subject; cam] =>
      let video_path_to_process := video_path_to_process args path_from_csv in
      match py_float start_str with
      | None => (RowRaised (CouldNotConvertToFloat start_str), s)
      | Some start_time =>
          match py_float end_str with
          | None => (RowRaised (CouldNotConvertToFloat end_str), s)
          | Some end_time =>
              if fltb start_time (float_of_int 0) || fltb end_time (float_of_int 0)
                 || fltb end_time start_time
              then
                (Continue,
                 main_logging WARNING
                   (InvalidStartEndTimes (i + 1) start_time end_time row) s)
              else
                match process_video env video_path_to_process label_text_from_csv
                        start_time end_time subject cam (output_dir args) (clip_only args)
                        (world s) with
                | (Ok _, w) => (Completed, set_world w s)
                | (Raised e, w) => (RowRaised (RaisedByProcessVideo e), set_world w s)
                end
          end
      end
  | _ =>
      (Continue,
       main_logging WARNING (IncorrectNumberOfColumns (i + 1) (length row) row) s)
  end.

(** Lines 147-182: the inner [try] with its handlers.  [ValueError] is
    handled by the first, every other exception by the second. *)
Definition process_row (args : Args) (env : Env) (i : nat) (row : list pystr) (s : Session)
  : Session :=
  match row_body args env i row s with
  | (Completed, s') | (Continue, s') => s'
  | (RowRaised e, s') =>
      match e with
      | CouldNotConvertToFloat _ | RaisedByProcessVideo ValueError =>
          main_logging WARNING (DataConversionError (i + 1) e row) s'
      | RaisedByProcessVideo OverflowError =>
          main_logging ERROR (UnexpectedError (i + 1) e row) s'
      end
  end.

(** Lines 146-182: the loop over the rows the reader yields, from the row
    of index [i] on. *)
Fixpoint process_rows (args : Args) (host : Host) (rows : list (list pystr)) (i : nat)
    (s : Session) : Session :=
  match rows with
  | [] => s
  | row :: rows' =>
      process_rows args host rows' (S i) (process_row args (at_row host i) i row s)
  end.

(** How [main] ends: it returns, or the exception of [os.makedirs], which
    nothing handles, leaves it. *)
Inductive MainExit := Returned | MakedirsRaised.

Definition main (args : Args) (host : Host) (s : Session) : MainExit * Session :=
  if negb (os_path_exists (at_start host) (csv_file args)) then
    (Returned, main_logging ERROR (CsvFileNotFound (csv_file args)) s)
  else
    let prepared :=
      if negb (os_path_exists (at_start host) (output_dir args)) then
        if makedirs_succeeds host (output_dir args) then
          Some (main_logging INFO (CreatedOutputDirectory (output_dir args))
                  (makedirs (output_dir args) s))
        else None
      else Some s in
    match prepared with
    | None => (MakedirsRaised, s)
    | Some s =>
        match csv host with
        | CsvVanished =>
            (Returned, main_logging ERROR (CsvFileNotFound (csv_file args)) s)
        | CsvUnreadable e => (Returned, main_logging ERROR (FailedToReadCsv e) s)
        | CsvRows rows error =>
            let s := process_rows args host rows 0 s in
            match error with
            | Some e => (Returned, main_logging ERROR (FailedToReadCsv e) s)
            | None => (Returned, s)
            end
        end
    end.
End Main.

(** ** Definitions the statements about [main] use *)

(** The arguments of a call of [process_video] that come from the row. *)
Record Request := {
  rq_video_path : pystr;
  rq_label : pystr;
  rq_start : float;
  rq_end : float;
  rq_subject : pystr;
  rq_cam : pystr
}.

(** The call a row leads to: the row has six fields, [float] reads the
    third and the fourth, and the test of line 173 lets them through. *)
Definition request_of `{PyRuntime} (args : Args) (row : list pystr) : option Request :=
  match row with
  | [path_from_csv; label_text_from_csv; start_str; end_str; subject; cam] =>
      match py_float start_str, py_float end_str with
      | Some start_time, Some end_time =>
          if fltb start_time (float_of_int 0) || fltb end_time (float_of_int 0)
             || fltb end_time start_time
          then None
          else Some {| rq_video_path := video_path_to_process args path_from_csv;
                       rq_label := label_text_from_csv;
                       rq_start := start_time;
                       rq_end := end_time;
                       rq_subject := subject;
                       rq_cam := cam |}
      | _, _ => None
      end
  | _ => None
  end.

Definition run_request `{PyRuntime} (args : Args) (env : Env) (rq : Request)
  : World -> result unit * World :=
  process_video env (rq_video_path rq) (rq_label rq) (rq_start rq) (rq_end rq)
    (rq_subject rq) (rq_cam rq) (output_dir args) (clip_only args).

(** The calls the rows from index [i] on lead to, each with the index of
    its row. *)
Fixpoint requests `{PyRuntime} (args : Args) (rows : list (list pystr)) (i : nat)
  : list (nat * Request) :=
  match rows with
  | [] => []
  | row :: rows' =>
      match request_of args row with
      | Some rq => [(i, rq)]
      | None => []
      end ++ requests args rows' (S i)
  end.

(** The path of the file a request is written to. *)
Definition request_output `{PyRuntime} (args : Args) (rq : Request) : pystr :=
  output_video_path (rq_video_path rq) (label_tag (rq_label rq)) (rq_start rq) (rq_end rq)
    (rq_subject rq) (rq_cam rq) (output_dir args).

(** A line of the journal that reports an exception [process_video]
    raised. *)
Definition reports_exception (line : nat * (Level * MainMessage)) : bool :=
  match line.2.2 with
  | DataConversionError _ (RaisedByProcessVideo _) _
  | UnexpectedError _ (RaisedByProcessVideo _) _ => true
  | _ => false
  end.


(** ** A batch for the examples *)

(** The video of the examples with a capture that reports no frame rate. *)
Definition silent_video : Video :=
  {| CAP_PROP_FPS := float_of_int 0;
     CAP_PROP_FRAME_WIDTH := float_of_int 640;
     CAP_PROP_FRAME_HEIGHT := float_of_int 480;
     frames := map blank (seq 0 100) |}.

Definition silent_env : Env :=
  {| os_path_exists := fun p => bool_decide (p = demo_path);
     capture_opens := fun p => if bool_decide (p = demo_path) then Some silent_video else None;
     writer_opens := fun _ _ _ _ => true |}.

(** [label_videos.py labels.csv --output_dir out --clip_only] *)
Definition demo_args : Args :=
  {| csv_file := lit "labels.csv";
     output_dir := lit "out";
     video_base_dir := None;
     video_suffix := None;
     clip_only := true |}.

Definition demo_row : list pystr :=
  [lit "videos/walk.mp4"; lit "1"; lit "1.0"; lit "3.0"; lit "s1"; lit "cam1"].


(** A row that is too short, a row whose start is not a number, and the
    row of the examples. *)
Definition demo_rows : list (list pystr) :=
  [ [lit "videos/walk.mp4"; lit "1"];
    [lit "videos/walk.mp4"; lit "1"; lit "nan"; lit "3.0"; lit "s1"; lit "cam1"];
    demo_row ].

(** The CSV file and the output directory exist, as does the video of the
    examples. *)
Definition demo_host : Host :=
  {| at_start := {| os_path_exists := fun _ => true;
                    capture_opens := fun _ => None;
                    writer_opens := fun _ _ _ _ => false |};
     makedirs_succeeds := fun _ => true;
     csv := CsvRows demo_rows None;
     at_row := fun _ => demo_env |}.

Definition empty_session : Session :=
  {| world := empty_world; directories := []; journal := [] |}.

(** * Verification *)

(** ** The Filename Sanitizer *)

Section Sanitizer.
Context `{PyRuntime}.

Lemma sanitize_pointwise x :
  sanitize_filename_component x = map sanitize_char x.
Proof.
  unfold sanitize_filename_component, replace. rewrite map_map.
  apply map_ext. intros c. unfold sanitize_char.
  destruct (N.eqb_spec c SPACE) as [->|Hc]; [reflexivity|].
  destruct (isalnum c || in_kept c) eqn:E; [|reflexivity].
  destruct (N.eqb_spec c SPACE); congruence.
Qed.

Lemma sanitize_char_idem c : sanitize_char (sanitize_char c) = sanitize_char c.
Proof.
  unfold sanitize_char.
  destruct (N.eqb_spec c SPACE) as [->|Hc]; [reflexivity|].
  destruct (isalnum c || in_kept c) eqn:E; [|reflexivity].
  destruct (N.eqb_spec c SPACE); [congruence|]. now rewrite E.
Qed.

Lemma sanitize_char_class c :
  in_safe_set (sanitize_char c)
  || ((128 <=? sanitize_char c) && isalnum (sanitize_char c)) = true.
Proof.
  unfold sanitize_char.
  destruct (N.eqb_spec c SPACE) as [->|Hc]; [reflexivity|].
  destruct (isalnum c || in_kept c) eqn:E; [|reflexivity].
  apply orb_true_iff in E as [E|E].
  - rewrite E. unfold isalnum in E. unfold in_safe_set.
    destruct (N.ltb_spec c 128).
    + now rewrite E.
    + replace (128 <=? c) with true by (symmetry; apply N.leb_le; lia).
      now rewrite orb_true_r.
  - unfold in_kept in E. apply orb_true_iff in E as [E|E].
    + apply orb_true_iff in E as [E|E]; apply N.eqb_eq in E; subst;
        [congruence|reflexivity].
    + apply N.eqb_eq in E; subst. reflexivity.
Qed.

(** C6: the Filename Sanitizer is idempotent: sanitizing a sanitized
    string changes nothing, for every string. *)
Theorem sanitize_idempotent (x : pystr) :
  sanitize_filename_component (sanitize_filename_component x)
  = sanitize_filename_component x.
Proof.
  rewrite !sanitize_pointwise, map_map.
  apply map_ext. intros c. apply sanitize_char_idem.
Qed.

(** C7, as amended: the output is the input with every character that is
    not alphanumeric, a space, a dot or an underscore replaced with an
    underscore and then every space replaced with an underscore; each of
    its characters is in [[A-Za-z0-9_.]] or is a non-ASCII character that
    [str.isalnum] accepts. *)
Theorem sanitize_output_characters (x : pystr) :
  sanitize_filename_component x = map sanitize_char x
  /\ forallb (fun c => in_safe_set c || ((128 <=? c) && isalnum c))
       (sanitize_filename_component x) = true.
Proof.
  split; [apply sanitize_pointwise|].
  rewrite sanitize_pointwise. apply forallb_forall.
  intros c Hc. apply in_map_iff in Hc as (c0 & <- & _).
  apply sanitize_char_class.
Qed.
End Sanitizer.

(** C7, as stated, fails: ["é"] (U+00E9) is alphanumeric for [str.isalnum],
    so the sanitizer keeps it, and it is outside [[A-Za-z0-9_.]]. *)
Lemma sanitize_keeps_e_acute :
  @sanitize_filename_component latin1_runtime [233] = [233]
  /\ in_safe_set 233 = false.
Proof. split; reflexivity. Qed.

(** ** The Label Resolver *)

Section LabelResolver.
Context `{PyRuntime}.

Lemma add_log_nil w : add_log [] w = w.
Proof. destruct w; unfold add_log; cbn. now rewrite app_nil_r. Qed.

Lemma resolve_label_run raw w :
  resolve_label raw w = (Ok (label_tag raw), add_log (label_warnings raw) w).
Proof.
  unfold resolve_label, label_tag, label_warnings.
  destruct (py_int raw) as [c|]; [|reflexivity].
  destruct (LABEL_MAP !! c) as [tag|] eqn:E; cbn.
  - rewrite ?bool_decide_eq_false_2 by done. unfold bind, ret. now rewrite add_log_nil.
  - rewrite ?bool_decide_eq_true_2 by done. reflexivity.
Qed.

(** C5: the Label Resolver never fails.  A raw label that [int] parses to
    a code of the table (which has the ten codes 0 to 9, 7 being
    ["stand_up"]) yields the tag of the table and no diagnostic; one that
    [int] parses to another integer yields ["Unknown_Label_<raw>"] and a
    warning; one that [int] refuses yields ["Invalid_Label_<raw>"] and a
    warning. *)
Theorem label_resolver_total (raw : pystr) (w : World) :
  resolve_label raw w =
    match py_int raw with
    | Some c =>
        match LABEL_MAP !! c with
        | Some tag => (Ok tag, w)
        | None =>
            (Ok (lit "Unknown_Label_" ++ raw),
             add_log [(WARNING, LabelNotInMap raw (lit "Unknown_Label_" ++ raw))] w)
        end
    | None =>
        (Ok (lit "Invalid_Label_" ++ raw), add_log [(WARNING, LabelNotInteger raw)] w)
    end
  /\ map_to_list LABEL_MAP ≡ₚ
       [ (0, lit "walk"); (1, lit "fall"); (2, lit "fallen"); (3, lit "sit_down");
         (4, lit "sitting"); (5, lit "lie_down"); (6, lit "lying");
         (7, lit "stand_up"); (8, lit "standing"); (9, lit "other") ]%Z.
Proof.
  split.
  - rewrite resolve_label_run. unfold label_tag, label_warnings.
    destruct (py_int raw) as [c|]; [|reflexivity].
    destruct (LABEL_MAP !! c); cbn; [now rewrite add_log_nil|reflexivity].
  - unfold LABEL_MAP. apply map_to_list_to_map.
    compute_done.
Qed.
End LabelResolver.

(** ** The Frame Pipeline *)

Local Open Scope Z_scope.

Lemma write_frames_nil out w : write_frames out [] w = w.
Proof.
  unfold write_frames. destruct (out_opened out); [|done].
  destruct w as [oc ow fl lg]; cbn. f_equal.
  apply alter_id. intros [] _. unfold append_frames; cbn. now rewrite app_nil_r.
Qed.

Lemma write_frames_cons out f l w :
  write_frames out l (out_write out f w).2 = write_frames out (f :: l) w.
Proof.
  unfold write_frames, out_write. cbn. destruct (out_opened out); [|done]. cbn.
  f_equal. rewrite alter_alter_eq. apply alter_ext. intros [] _.
  unfold append_frames, append_frame; cbn. now rewrite <- app_assoc.
Qed.

(** The loop never raises; it counts what it reads and what it writes. *)
Lemma frame_loop_run out label s e clip fs : forall idx fw w,
  frame_loop out label s e clip fs idx fw w =
  (Ok (idx + Z.of_nat (length fs),
       fw + Z.of_nat (length (emitted_frames label s e clip fs idx)),
       seen_frames label s e fs idx),
   write_frames out (emitted_frames label s e clip fs idx) w).
Proof.
  induction fs as [|f fs IH]; intros idx fw w.
  - cbn. rewrite write_frames_nil. unfold ret. repeat f_equal; lia.
  - cbn [frame_loop seen_frames emitted_frames]. unfold emits.
    set (b := is_in_labeled_segment s e idx).
    destruct clip; [destruct b|]; unfold bind, ret; cbn [out_write fst snd];
      rewrite IH; cbn [fst snd app length];
      rewrite <- ?write_frames_cons; cbn [out_write snd].
    all: repeat match goal with
         | |- context [?a + 1 + Z.of_nat ?n] =>
             replace (a + 1 + Z.of_nat n) with (a + Z.of_nat (S n)) by lia
         end; reflexivity.
Qed.

Lemma seen_frames_imap label s e fs : forall idx,
  seen_frames label s e fs idx =
  imap (fun i f => overlay label (is_in_labeled_segment s e (idx + Z.of_nat i)) f) fs.
Proof.
  induction fs as [|f fs IH]; intros idx; cbn [seen_frames]; [done|].
  rewrite imap_cons, IH. f_equal.
  - now rewrite Z.add_0_r.
  - apply imap_ext. intros i x _. cbn. do 2 f_equal. lia.
Qed.

Lemma seen_frames_length label s e fs idx :
  length (seen_frames label s e fs idx) = length fs.
Proof. rewrite seen_frames_imap. apply length_imap. Qed.

Lemma emitted_frames_filter_from label s e clip fs : forall idx k,
  emitted_frames label s e clip fs (idx + Z.of_nat k) =
  (filter (fun p => emits s e clip (idx + Z.of_nat p.1) = true)
          (imap (fun i x => ((k + i)%nat, x))
             (seen_frames label s e fs (idx + Z.of_nat k)))).*2.
Proof.
  induction fs as [|f fs IH]; intros idx k; cbn [emitted_frames seen_frames]; [done|].
  rewrite imap_cons, filter_cons. cbn [fst]. rewrite Nat.add_0_r.
  replace (idx + Z.of_nat k + 1) with (idx + Z.of_nat (S k)) by lia.
  rewrite IH.
  rewrite (imap_ext (_ ∘ S) (fun i x => ((S k + i)%nat, x)))
    by (intros; cbn; f_equal; lia).
  case_decide as E; [rewrite E|apply not_true_is_false in E; rewrite E]; done.
Qed.

Lemma emitted_frames_filter label s e clip fs :
  emitted_frames label s e clip fs 0 =
  (filter (fun p => emits s e clip (Z.of_nat p.1) = true)
          (imap pair (seen_frames label s e fs 0))).*2.
Proof. apply (emitted_frames_filter_from label s e clip fs 0 0%nat). Qed.

(** In clip mode the loop writes as many frames as the window and the
    source have indices in common. *)
Lemma emitted_clip_length label s e fs : forall idx,
  Z.of_nat (length (emitted_frames label s e true fs idx)) =
  Z.max 0 (Z.min e (idx + Z.of_nat (length fs) - 1) - Z.max s idx + 1).
Proof.
  induction fs as [|f fs IH]; intros idx; cbn [emitted_frames length].
  - cbn. lia.
  - rewrite length_app, Nat2Z.inj_add, IH. unfold emits, is_in_labeled_segment.
    destruct (Z.leb_spec s idx), (Z.leb_spec idx e); cbn; lia.
Qed.

Lemma emitted_full label s e fs : forall idx,
  emitted_frames label s e false fs idx = seen_frames label s e fs idx.
Proof. induction fs as [|f fs IH]; intros idx; cbn; [done|]. now rewrite IH. Qed.

(** A window without an index of the source leaves every frame as read. *)
Lemma seen_frames_outside label s e fs : forall idx,
  e < idx \/ idx + Z.of_nat (length fs) - 1 < s ->
  seen_frames label s e fs idx = fs.
Proof.
  induction fs as [|f fs IH]; intros idx Hout; cbn [seen_frames]; [done|].
  cbn [length] in Hout. rewrite IH by lia. f_equal.
  unfold overlay, is_in_labeled_segment.
  destruct (Z.leb_spec s idx), (Z.leb_spec idx e); cbn; try done; lia.
Qed.

Lemma putText_changes frame text org fontFace fontScale color thickness lineType :
  putText frame text org fontFace fontScale color thickness lineType <> frame.
Proof.
  intros E. apply (f_equal (fun f => length (drawn f))) in E. cbn in E.
  rewrite length_app in E. cbn in E. lia.
Qed.

(** C1: for the frame of every index [i] the loop reads, the overlay is
    drawn (the buffer changes, by [putText] with the label) exactly when
    [start_frame <= i <= end_frame], whatever the output mode; in clip mode
    the frames written are exactly those of the indices in the window.
    Nothing but membership in the window enters either decision. *)
Theorem segment_membership_decides (out : Writer) (label_to_write : pystr)
    (start_frame end_frame : Z) (clip_only : bool) (fs : list Frame) (w : World) :
  let in_segment := fun i : nat => bool_decide (start_frame <= Z.of_nat i <= end_frame) in
  let seen :=
    imap (fun i f =>
            if in_segment i
            then putText f label_to_write (50, 50) FONT_HERSHEY_SIMPLEX 1
                   (255, 255, 255) 2 LINE_AA
            else f) fs in
  let written :=
    (filter (fun p => (if clip_only then in_segment p.1 else true) = true)
            (imap pair seen)).*2 in
  frame_loop out label_to_write start_frame end_frame clip_only fs 0 0 w
  = (Ok (Z.of_nat (length fs), Z.of_nat (length written), seen),
     write_frames out written w)
  /\ (forall f, putText f label_to_write (50, 50) FONT_HERSHEY_SIMPLEX 1
                  (255, 255, 255) 2 LINE_AA <> f).
Proof.
  intros in_segment seen written.
  assert (Hin : forall i : nat,
            is_in_labeled_segment start_frame end_frame (Z.of_nat i) = in_segment i).
  { intros i. unfold is_in_labeled_segment, in_segment.
    destruct (Z.leb_spec start_frame (Z.of_nat i)), (Z.leb_spec (Z.of_nat i) end_frame);
      cbn; symmetry; (apply bool_decide_eq_true_2 || apply bool_decide_eq_false_2); lia. }
  assert (Hseen : seen_frames label_to_write start_frame end_frame fs 0 = seen).
  { rewrite seen_frames_imap. apply imap_ext. intros i f _.
    change (0 + Z.of_nat i) with (Z.of_nat i).
    unfold overlay. now rewrite Hin. }
  assert (Hwr : emitted_frames label_to_write start_frame end_frame clip_only fs 0 = written).
  { rewrite emitted_frames_filter, Hseen. unfold written. f_equal.
    apply list_filter_iff. intros [i f]. unfold emits. cbn [fst].
    now rewrite Hin. }
  split; [|intros f; apply putText_changes].
  rewrite frame_loop_run, Hseen, Hwr. reflexivity.
Qed.

(** ** Runs of [process_video] *)

Section Runs.
Context `{PyRuntime} (env : Env).

Lemma close_handle_head p l : close_handle p (p :: l) = l.
Proof. cbn. now rewrite decide_True. Qed.

(** The source does not exist: lines 42-44. *)
Lemma process_video_missing vp raw ss es subj cam dir clip w :
  os_path_exists env vp = false ->
  process_video env vp raw ss es subj cam dir clip w =
  (Ok tt, add_log (label_warnings raw ++ [(ERROR, VideoNotFound vp)]) w).
Proof.
  intros Hex. unfold process_video, bind. rewrite resolve_label_run, Hex. cbn.
  unfold add_log; cbn. now rewrite app_assoc.
Qed.

(** The source does not open: lines 46-49. *)
Lemma process_video_unopenable vp raw ss es subj cam dir clip w :
  os_path_exists env vp = true ->
  capture_opens env vp = None ->
  process_video env vp raw ss es subj cam dir clip w =
  (Ok tt, add_log (label_warnings raw ++ [(ERROR, CouldNotOpenVideo vp)]) w).
Proof.
  intros Hex Hcap. unfold process_video, bind.
  rewrite resolve_label_run, Hex. cbn. rewrite Hcap. cbn.
  unfold add_log; cbn. now rewrite app_assoc.
Qed.

Lemma fps_step vp v w :
  (if feqb (CAP_PROP_FPS v) (float_of_int 0)
   then logging ERROR (NoFps vp) ;> ret (float_of_int 30)
   else ret (CAP_PROP_FPS v)) w
  = (Ok (effective_fps v), add_log (fps_errors vp v) w).
Proof.
  unfold effective_fps, fps_errors.
  destruct (feqb _ _); [reflexivity|]. unfold ret. now rewrite add_log_nil.
Qed.

(** When a conversion of lines 56-60 raises, the exception leaves
    [process_video] with the capture open; no writer has been constructed
    and no file created. *)
Lemma process_video_raises vp raw ss es subj cam dir clip w v x :
  os_path_exists env vp = true ->
  capture_opens env vp = Some v ->
  conversions v ss es = Raised x ->
  process_video env vp raw ss es subj cam dir clip w =
  (Raised x,
   {| open_captures := vp :: open_captures w;
      open_writers := open_writers w;
      files := files w;
      log := log w ++ label_warnings raw ++ fps_errors vp v |}).
Proof.
  intros Hex Hcap Hconv. unfold process_video, bind at 1.
  rewrite resolve_label_run, Hex. cbn [negb].
  unfold bind at 1. unfold VideoCapture. rewrite Hcap. cbn [cap_video].
  unfold bind at 1. rewrite fps_step. unfold conversions in Hconv.
  unfold bind at 1, lift at 1.
  destruct (int_of_float (CAP_PROP_FRAME_WIDTH v)) as [fw|x1].
  2: { inversion Hconv; subst. unfold add_log; cbn. now rewrite app_assoc. }
  unfold bind at 1, lift at 1.
  destruct (int_of_float (CAP_PROP_FRAME_HEIGHT v)) as [fh|x1].
  2: { inversion Hconv; subst. unfold add_log; cbn. now rewrite app_assoc. }
  unfold bind at 1, lift at 1.
  destruct (frame_window ss es (effective_fps v)) as [win|x1]; [discriminate|].
  inversion Hconv; subst. unfold add_log; cbn. now rewrite app_assoc.
Qed.

(** The writer does not open: lines 75-78. *)
Lemma process_video_writer_fails vp raw ss es subj cam dir clip w v fw fh s e :
  let op := output_video_path vp (label_tag raw) ss es subj cam dir in
  os_path_exists env vp = true ->
  capture_opens env vp = Some v ->
  conversions v ss es = Ok (fw, fh, (s, e)) ->
  writer_opens env op mp4v (effective_fps v) (fw, fh) = false ->
  process_video env vp raw ss es subj cam dir clip w =
  (Ok tt,
   add_log (label_warnings raw ++ fps_errors vp v ++ [(ERROR, CouldNotOpenWriter op)]) w).
Proof.
  intros op Hex Hcap Hconv Hout. unfold conversions in Hconv.
  destruct (int_of_float (CAP_PROP_FRAME_WIDTH v)) as [fw'|] eqn:Hw; [|discriminate].
  destruct (int_of_float (CAP_PROP_FRAME_HEIGHT v)) as [fh'|] eqn:Hh; [|discriminate].
  destruct (frame_window ss es (effective_fps v)) as [win|] eqn:Hwin; [|discriminate].
  inversion Hconv; subst.
  unfold process_video, bind at 1. rewrite resolve_label_run, Hex. cbn [negb].
  unfold bind at 1. unfold VideoCapture. rewrite Hcap. cbn [cap_video].
  unfold bind at 1. rewrite fps_step.
  unfold bind at 1, lift at 1. rewrite Hw.
  unfold bind at 1, lift at 1. rewrite Hh.
  unfold bind at 1, lift at 1. rewrite Hwin. cbn [fst snd].
  fold op. fold mp4v.
  unfold bind at 1, VideoWriter. rewrite Hout. cbn [out_opened negb].
  unfold bind, logging, cap_release, cap_isOpened.
  cbn [cap_video cap_path add_log open_captures open_writers files log].
  rewrite bool_decide_eq_true_2 by eauto.
  rewrite close_handle_head. unfold add_log; cbn.
  do 2 f_equal. now rewrite <- !app_assoc.
Qed.

(** The writer opens: lines 80-121. *)
Lemma process_video_streams vp raw ss es subj cam dir clip w v fw fh s e :
  let op := output_video_path vp (label_tag raw) ss es subj cam dir in
  let written := emitted_frames (label_tag raw) s e clip (frames v) 0 in
  os_path_exists env vp = true ->
  capture_opens env vp = Some v ->
  conversions v ss es = Ok (fw, fh, (s, e)) ->
  writer_opens env op mp4v (effective_fps v) (fw, fh) = true ->
  process_video env vp raw ss es subj cam dir clip w =
  (Ok tt,
   {| open_captures := open_captures w;
      open_writers := open_writers w;
      files := <[ op := {| vf_fourcc := mp4v; vf_fps := effective_fps v;
                           vf_frameSize := (fw, fh); vf_frames := written |} ]>
                 (files w);
      log := log w ++ label_warnings raw ++ fps_errors vp v
             ++ [ (INFO, Processing vp op);
                  (INFO, if clip then SavingClipOnly (label_tag raw) raw ss es
                         else LabelFromTo (label_tag raw) raw s ss e es);
                  if 0 <? Z.of_nat (length written)
                  then (INFO, Saved op) else (WARNING, NoFramesWritten op) ] |}).
Proof.
  intros op written Hex Hcap Hconv Hout. unfold conversions in Hconv.
  destruct (int_of_float (CAP_PROP_FRAME_WIDTH v)) as [fw'|] eqn:Hw; [|discriminate].
  destruct (int_of_float (CAP_PROP_FRAME_HEIGHT v)) as [fh'|] eqn:Hh; [|discriminate].
  destruct (frame_window ss es (effective_fps v)) as [win|] eqn:Hwin; [|discriminate].
  inversion Hconv; subst.
  unfold process_video, bind at 1. rewrite resolve_label_run, Hex. cbn [negb].
  unfold bind at 1. unfold VideoCapture. rewrite Hcap. cbn [cap_video].
  unfold bind at 1. rewrite fps_step.
  unfold bind at 1, lift at 1. rewrite Hw.
  unfold bind at 1, lift at 1. rewrite Hh.
  unfold bind at 1, lift at 1. rewrite Hwin. cbn [fst snd].
  fold op. fold mp4v.
  unfold bind at 1, VideoWriter. rewrite Hout. cbn [out_opened negb].
  assert (Hmode : forall w0,
    (if clip then logging INFO (SavingClipOnly (label_tag raw) raw ss es)
     else logging INFO (LabelFromTo (label_tag raw) raw s ss e es)) w0
    = (Ok tt, add_log [(INFO, if clip then SavingClipOnly (label_tag raw) raw ss es
                               else LabelFromTo (label_tag raw) raw s ss e es)] w0)).
  { intros w0. now destruct clip. }
  unfold bind at 1. unfold logging at 1.
  unfold bind at 1. rewrite Hmode.
  unfold bind at 1. rewrite frame_loop_run. cbn [fst snd].
  rewrite Z.add_0_l. fold written.
  unfold bind, cap_release, out_release, cap_isOpened, write_frames.
  cbn [cap_video cap_path out_opened out_path add_log open_captures open_writers files log].
  rewrite bool_decide_eq_true_2 by eauto.
  cbn [add_log open_captures open_writers files log].
  rewrite !close_handle_head, alter_insert_eq.
  unfold append_frames; cbn [vf_fourcc vf_fps vf_frameSize vf_frames app].
  destruct (0 <? _); unfold logging;
    cbn [add_log open_captures open_writers files log];
    do 2 f_equal; rewrite <- !app_assoc; reflexivity.
Qed.

(** X1: every return of [process_video], the early ones and the one at
    the end, leaves the open handles as it found them: what it opened it
    has released. *)
Lemma process_video_returns_released vp raw ss es subj cam dir clip w w' :
  process_video env vp raw ss es subj cam dir clip w = (Ok tt, w') ->
  open_captures w' = open_captures w /\ open_writers w' = open_writers w.
Proof.
  destruct (os_path_exists env vp) eqn:Hex.
  2: { rewrite process_video_missing by done. now inversion 1. }
  destruct (capture_opens env vp) as [v|] eqn:Hcap.
  2: { rewrite process_video_unopenable by done. now inversion 1. }
  destruct (conversions v ss es) as [[[fw fh] [s e]]|x] eqn:Hconv.
  2: { erewrite process_video_raises by done. discriminate. }
  destruct (writer_opens env (output_video_path vp (label_tag raw) ss es subj cam dir)
              mp4v (effective_fps v) (fw, fh)) eqn:Hout.
  - erewrite process_video_streams by done. now inversion 1.
  - erewrite process_video_writer_fails by done. now inversion 1.
Qed.
End Runs.

Section Modes.
Context `{PyRuntime} (env : Env).

(** C2: in clip mode, for a source of [N] frames and a window
    [(s, e)], [process_video] writes
    [max 0 (min e (N - 1) - max s 0 + 1)] frames to its output file; when
    the window has no index of the source ([e < 0] or [N - 1 < s]) it
    writes none and its last diagnostic is the warning that no frame was
    written. *)
Theorem clip_only_frame_count vp raw ss es subj cam dir w v fw fh s e :
  let op := output_video_path vp (label_tag raw) ss es subj cam dir in
  let N := Z.of_nat (length (frames v)) in
  os_path_exists env vp = true ->
  capture_opens env vp = Some v ->
  conversions v ss es = Ok (fw, fh, (s, e)) ->
  writer_opens env op mp4v (effective_fps v) (fw, fh) = true ->
  exists w' file,
    process_video env vp raw ss es subj cam dir true w = (Ok tt, w')
    /\ files w' !! op = Some file
    /\ Z.of_nat (length (vf_frames file)) = Z.max 0 (Z.min e (N - 1) - Z.max s 0 + 1)
    /\ (e < 0 \/ N - 1 < s ->
        vf_frames file = [] /\ last (log w') = Some (WARNING, NoFramesWritten op)).
Proof.
  intros op N Hex Hcap Hconv Hout.
  eexists _, _. split; [apply process_video_streams; eassumption|].
  cbn [files log vf_frames]. fold op.
  split; [apply lookup_insert_eq|].
  pose proof (emitted_clip_length (label_tag raw) s e (frames v) 0) as Hlen.
  rewrite Z.add_0_l in Hlen. fold N in Hlen.
  split; [exact Hlen|].
  intros Hout'.
  assert (Hnil : emitted_frames (label_tag raw) s e true (frames v) 0 = []).
  { apply length_zero_iff_nil. lia. }
  rewrite Hnil. split; [reflexivity|].
  change (0 <? Z.of_nat (length (@nil Frame))) with false. cbv iota.
  rewrite !app_assoc, last_app. reflexivity.
Qed.

(** C3: in full mode, for every source and every window, [process_video]
    writes as many frames as the source has; the frame of index [i] is the
    source's with the label drawn on it when [s <= i <= e] and the
    source's as read otherwise, so a window without an index of the source
    forwards every frame unmodified. *)
Theorem full_mode_forwards_every_frame vp raw ss es subj cam dir w v fw fh s e :
  let op := output_video_path vp (label_tag raw) ss es subj cam dir in
  let N := Z.of_nat (length (frames v)) in
  os_path_exists env vp = true ->
  capture_opens env vp = Some v ->
  conversions v ss es = Ok (fw, fh, (s, e)) ->
  writer_opens env op mp4v (effective_fps v) (fw, fh) = true ->
  exists w' file,
    process_video env vp raw ss es subj cam dir false w = (Ok tt, w')
    /\ files w' !! op = Some file
    /\ length (vf_frames file) = length (frames v)
    /\ vf_frames file =
         imap (fun i f =>
                 if bool_decide (s <= Z.of_nat i <= e)
                 then putText f (label_tag raw) (50, 50) FONT_HERSHEY_SIMPLEX 1
                        (255, 255, 255) 2 LINE_AA
                 else f) (frames v)
    /\ (e < 0 \/ N - 1 < s -> vf_frames file = frames v).
Proof.
  intros op N Hex Hcap Hconv Hout.
  eexists _, _. split; [apply process_video_streams; eassumption|].
  cbn [files log vf_frames]. fold op.
  split; [apply lookup_insert_eq|].
  rewrite emitted_full.
  split; [apply seen_frames_length|].
  split.
  - rewrite seen_frames_imap. apply imap_ext. intros i f _.
    change (0 + Z.of_nat i) with (Z.of_nat i).
    unfold overlay, is_in_labeled_segment.
    destruct (Z.leb_spec s (Z.of_nat i)), (Z.leb_spec (Z.of_nat i) e); cbn;
      [rewrite bool_decide_eq_true_2 by lia|rewrite bool_decide_eq_false_2 by lia..];
      reflexivity.
  - intros Hout'. apply seen_frames_outside. fold N. lia.
Qed.

(** C10, as amended: when the source does not exist or does not open,
    [process_video] returns without constructing a writer: the files and
    the open handles are as before, and the log has gained the warning of
    the Label Resolver, when the label is not a code of the table,
    followed by one error. *)
Theorem no_output_without_source vp raw ss es subj cam dir clip w :
  os_path_exists env vp = false \/ capture_opens env vp = None ->
  exists w',
    process_video env vp raw ss es subj cam dir clip w = (Ok tt, w')
    /\ files w' = files w
    /\ open_writers w' = open_writers w
    /\ open_captures w' = open_captures w
    /\ log w' = log w ++ label_warnings raw
                ++ [(ERROR, if os_path_exists env vp
                            then CouldNotOpenVideo vp else VideoNotFound vp)].
Proof.
  intros Hno. destruct (os_path_exists env vp) eqn:Hex.
  - destruct Hno as [?|Hcap]; [discriminate|].
    eexists. split; [apply process_video_unopenable; assumption|]. now cbn.
  - eexists. split; [apply process_video_missing; assumption|]. now cbn.
Qed.
End Modes.

(** Scenario A: 1.0 s to 3.0 s of 100 frames at 10 frames per second is
    the window of frames 10 to 30. *)
Lemma scenario_A_conversions :
  conversions demo_video (float_of_int 1) (float_of_int 3) = Ok (640, 480, (10, 30)).
Proof. vm_compute. reflexivity. Qed.

Lemma clip_only_scenario_A :
  exists w' file,
    @process_video latin1_runtime demo_env demo_path (lit "1")
      (float_of_int 1) (float_of_int 3) (lit "s1") (lit "cam1") (lit "out") true empty_world
    = (Ok tt, w')
    /\ files w' !! lit "out/walk_s1_cam1_fall_1.0s_3.0s.mp4" = Some file
    /\ Z.of_nat (length (vf_frames file)) = 21.
Proof.
  destruct (@clip_only_frame_count latin1_runtime demo_env demo_path (lit "1")
              (float_of_int 1) (float_of_int 3) (lit "s1") (lit "cam1") (lit "out")
              empty_world demo_video 640 480 10 30)
    as (w' & file & Hrun & Hfile & Hlen & _);
    [reflexivity | reflexivity | exact scenario_A_conversions | reflexivity |].
  exists w', file. split; [exact Hrun|]. split; [exact Hfile|exact Hlen].
Defined.

Lemma full_mode_scenario_A :
  exists w' file,
    @process_video latin1_runtime demo_env demo_path (lit "1")
      (float_of_int 1) (float_of_int 3) (lit "s1") (lit "cam1") (lit "out") false empty_world
    = (Ok tt, w')
    /\ files w' !! lit "out/walk_s1_cam1_fall_1.0s_3.0s.mp4" = Some file
    /\ length (vf_frames file) = 100%nat.
Proof.
  destruct (@full_mode_forwards_every_frame latin1_runtime demo_env demo_path (lit "1")
              (float_of_int 1) (float_of_int 3) (lit "s1") (lit "cam1") (lit "out")
              empty_world demo_video 640 480 10 30)
    as (w' & file & Hrun & Hfile & Hlen & _);
    [reflexivity | reflexivity | exact scenario_A_conversions | reflexivity |].
  exists w', file. split; [exact Hrun|]. split; [exact Hfile|exact Hlen].
Defined.

Lemma no_output_for_missing_source :
  exists w',
    @process_video latin1_runtime demo_env (lit "videos/gone.mp4") (lit "1")
      (float_of_int 1) (float_of_int 3) (lit "s1") (lit "cam1") (lit "out") true empty_world
    = (Ok tt, w')
    /\ files w' = ∅
    /\ log w' = [(ERROR, VideoNotFound (lit "videos/gone.mp4"))].
Proof.
  destruct (@no_output_without_source latin1_runtime demo_env (lit "videos/gone.mp4") (lit "1")
              (float_of_int 1) (float_of_int 3) (lit "s1") (lit "cam1") (lit "out") true
              empty_world)
    as (w' & Hrun & Hfiles & _ & _ & Hlog); [left; reflexivity|].
  exists w'. split; [exact Hrun|]. split; [exact Hfiles|exact Hlog].
Defined.

(** C10, as stated, fails: with the label ["99"] and a source that does not
    exist, the log gains a warning before the error. *)
Lemma missing_source_logs_warning_too :
  log (@process_video latin1_runtime demo_env (lit "videos/gone.mp4") (lit "99")
         (float_of_int 1) (float_of_int 3) (lit "s1") (lit "cam1") (lit "out") true
         empty_world).2
  = [ (WARNING, LabelNotInMap (lit "99") (lit "Unknown_Label_99"));
      (ERROR, VideoNotFound (lit "videos/gone.mp4")) ].
Proof. vm_compute. reflexivity. Qed.

Lemma returns_released_scenario_A :
  open_captures
    (@process_video latin1_runtime demo_env demo_path (lit "1")
       (float_of_int 1) (float_of_int 3) (lit "s1") (lit "cam1") (lit "out") true
       empty_world).2 = []
  /\ open_writers
       (@process_video latin1_runtime demo_env demo_path (lit "1")
          (float_of_int 1) (float_of_int 3) (lit "s1") (lit "cam1") (lit "out") true
          empty_world).2 = [].
Proof.
  apply (@process_video_returns_released latin1_runtime demo_env demo_path (lit "1")
           (float_of_int 1) (float_of_int 3) (lit "s1") (lit "cam1") (lit "out") true
           empty_world).
  vm_compute. reflexivity.
Defined.

(** A start time that is not a number makes line 59 raise [ValueError]. *)
Lemma capture_left_open_on_nan :
  @process_video latin1_runtime demo_env demo_path (lit "1")
    S754_nan (float_of_int 3) (lit "s1") (lit "cam1") (lit "out") true empty_world
  = (Raised ValueError,
     {| open_captures := [demo_path]; open_writers := []; files := ∅; log := [] |}).
Proof.
  rewrite (@process_video_raises latin1_runtime demo_env demo_path (lit "1")
             S754_nan (float_of_int 3) (lit "s1") (lit "cam1") (lit "out") true
             empty_world demo_video ValueError);
    reflexivity.
Defined.

(** Scenario B: the code ["7"] is ["stand_up"], which the sanitizer leaves
    as it is; the code ["99"] is not in the table. *)
Lemma scenario_B :
  @label_tag latin1_runtime (lit "7") = lit "stand_up"
  /\ @sanitize_filename_component latin1_runtime (lit "stand_up") = lit "stand_up"
  /\ @label_tag latin1_runtime (lit "99") = lit "Unknown_Label_99"
  /\ @label_warnings latin1_runtime (lit "99")
     = [(WARNING, LabelNotInMap (lit "99") (lit "Unknown_Label_99"))].
Proof. repeat split; vm_compute; reflexivity. Qed.

(** C9, at a failing input: an end time of infinity makes line 60 raise
    [OverflowError] after the capture has opened; [process_video] is left
    with the capture open. *)
Theorem capture_left_open_on_overflow :
  @process_video latin1_runtime demo_env demo_path (lit "1")
    (float_of_int 0) (S754_infinity false) (lit "s1") (lit "cam1") (lit "out") false
    empty_world
  = (Raised OverflowError,
     {| open_captures := [demo_path]; open_writers := []; files := ∅; log := [] |}).
Proof. vm_compute. reflexivity. Qed.

(** ** The Output Namer *)

Lemma rfind_from_spec c s : forall i found,
  (rfind_from c s i found = found /\ c ∉ s)
  \/ exists k : nat, rfind_from c s i found = i + Z.of_nat k
       /\ s !! k = Some c /\ c ∉ drop (S k) s.
Proof.
  induction s as [|x s IH]; intros i found; cbn [rfind_from].
  - left. split; [done|]. apply not_elem_of_nil.
  - destruct (IH (i + 1) (if (x =? c)%N then i else found)) as [[E Hn]|(k & E & Hk & Hn)].
    + destruct (N.eqb_spec x c) as [->|Hx].
      * right. exists 0%nat. rewrite E. split; [lia|]. split; [done|]. exact Hn.
      * left. split; [done|]. rewrite not_elem_of_cons. split; [congruence|done].
    + right. exists (S k). rewrite E. split; [lia|]. split; [done|]. exact Hn.
Qed.

Lemma rfind_spec c s :
  (rfind c s = -1 /\ c ∉ s)
  \/ exists k : nat, rfind c s = Z.of_nat k /\ s !! k = Some c /\ c ∉ drop (S k) s.
Proof.
  unfold rfind. destruct (rfind_from_spec c s 0 (-1)) as [?|(k & E & ?)]; [by left|].
  right. exists k. rewrite E. split; [lia|done].
Qed.

(** A path is a directory part, ending in a slash when it is not empty, and
    its base name, which has no slash. *)
Lemma basename_spec p :
  exists d, p = d ++ basename p /\ (SLASH ∉ basename p)
            /\ (d = [] \/ last d = Some SLASH).
Proof.
  unfold basename, slice_from.
  destruct (rfind_spec SLASH p) as [[E Hn]|(k & E & Hk & Hn)]; rewrite E.
  - exists []. cbn. rewrite drop_0. auto.
  - exists (take (S k) p).
    replace (Z.to_nat (Z.of_nat k + 1)) with (S k) by lia.
    rewrite take_drop. split; [done|]. split; [done|]. right.
    rewrite (take_S_r _ _ _ Hk). apply last_snoc.
Qed.

(** A name without a slash is its root and its extension; the extension is
    empty, or a dot and characters other than dots. *)
Lemma splitext_spec b :
  SLASH ∉ b ->
  b = (splitext b).1 ++ (splitext b).2
  /\ ((splitext b).2 = [] \/ exists r, (splitext b).2 = DOT :: r /\ (DOT ∉ r)).
Proof.
  intros Hb. unfold splitext.
  destruct (_ && _) eqn:C; cbn [fst snd].
  2: { rewrite app_nil_r. auto. }
  apply andb_true_iff in C as [C _].
  destruct (rfind_spec DOT b) as [[E Hn]|(k & E & Hk & Hn)]; rewrite E in *.
  - destruct (rfind_spec SLASH b) as [[E' _]|(k' & E' & _)]; rewrite E' in C; lia.
  - unfold slice_to, slice_from. rewrite Nat2Z.id, take_drop. split; [done|].
    right. exists (drop (S k) b). split; [|done].
    now rewrite (drop_S _ _ _ Hk).
Qed.

Lemma source_name_spec p :
  exists d ext,
    p = d ++ (splitext (basename p)).1 ++ ext
    /\ (SLASH ∉ (splitext (basename p)).1 ++ ext)
    /\ (d = [] \/ last d = Some SLASH)
    /\ (ext = [] \/ exists r, ext = DOT :: r /\ (DOT ∉ r)).
Proof.
  destruct (basename_spec p) as (d & Hp & Hb & Hd).
  destruct (splitext_spec _ Hb) as [Hs He].
  exists d, (splitext (basename p)).2. rewrite <- Hs. auto.
Qed.

Lemma round_half_even_near n d :
  0 < d -> 2 * Z.abs (n - round_half_even n d * d) <= d.
Proof.
  intros Hd. unfold round_half_even.
  pose proof (Z.div_mod n d ltac:(lia)) as E.
  pose proof (Z.mod_pos_bound n d Hd) as B.
  set (q := n / d) in *. set (r := n mod d) in *.
  destruct (Z.compare_spec (2 * r) d); [destruct (Z.even q)|..]; lia.
Qed.

Lemma round_half_even_nonneg n d : 0 <= n -> 0 < d -> 0 <= round_half_even n d.
Proof.
  intros Hn Hd. unfold round_half_even.
  pose proof (Z.div_pos n d Hn Hd).
  destruct (_ ?= _); [destruct (Z.even _)|..]; lia.
Qed.

Lemma decimal_digit d : 0 <= d <= 9 -> decimal d = [(48 + Z.to_N d)%N].
Proof.
  intros Hd.
  assert (d = 0 \/ d = 1 \/ d = 2 \/ d = 3 \/ d = 4 \/ d = 5 \/ d = 6 \/ d = 7
          \/ d = 8 \/ d = 9) as Hc by lia.
  repeat destruct Hc as [->|Hc]; try subst d; reflexivity.
Qed.

Lemma tenths_nonneg m e : 0 <= tenths m e.
Proof.
  unfold tenths. destruct (0 <=? e) eqn:E.
  - apply Z.leb_le in E. pose proof (Z.pow_pos_nonneg 2 e). lia.
  - apply Z.leb_gt in E. apply round_half_even_nonneg; [lia|].
    apply Z.pow_pos_nonneg; lia.
Qed.

(** [f"{x:.1f}"] writes [x] with one decimal place. *)
Lemma format_1f_one_decimal x : one_decimal x (format_1f x).
Proof.
  destruct x as [s|s| |s m e]; cbn [one_decimal format_1f]; try reflexivity.
  pose proof (tenths_nonneg m e) as Hn.
  exists (tenths m e / 10), (tenths m e mod 10).
  pose proof (Z.mod_pos_bound (tenths m e) 10 ltac:(lia)) as Hd.
  pose proof (Z.div_pos (tenths m e) 10 Hn ltac:(lia)) as Hq.
  split. { rewrite (decimal_digit (tenths m e mod 10)) by lia. reflexivity. }
  split; [lia|]. split; [lia|].
  rewrite <- Z.div_mod by lia.
  unfold tenths. destruct (0 <=? e) eqn:E.
  - apply Z.leb_le in E. rewrite Z.max_l, Z.max_r by lia. cbn. lia.
  - apply Z.leb_gt in E. rewrite Z.max_r, Z.max_l by lia. rewrite Z.pow_0_r, Z.mul_1_r.
    apply round_half_even_near. apply Z.pow_pos_nonneg; lia.
Qed.

Lemma fmul_finite x y : is_finite (fmul x y) = true -> is_finite x = true /\ is_finite y = true.
Proof. destruct x, y; cbn; auto; discriminate. Qed.

Lemma int_of_float_ok x n : int_of_float x = Ok n -> is_finite x = true.
Proof. destruct x; cbn; auto; discriminate. Qed.

Lemma frame_window_finite a b fps s e :
  frame_window a b fps = Ok (s, e) -> is_finite a = true /\ is_finite b = true.
Proof.
  unfold frame_window.
  destruct (int_of_float (fmul a fps)) eqn:Ea; [|discriminate].
  destruct (int_of_float (fmul b fps)) eqn:Eb; [|discriminate].
  intros _. apply int_of_float_ok, fmul_finite in Ea, Eb. tauto.
Qed.

Lemma uint_digits_no_slash u : SLASH ∉ uint_digits u.
Proof.
  induction u; cbn [uint_digits]; rewrite ?not_elem_of_cons;
    try (split; [discriminate|assumption]).
  apply not_elem_of_nil.
Qed.

Lemma format_1f_no_slash x : SLASH ∉ format_1f x.
Proof.
  assert (Hs : forall s, SLASH ∉ sign_prefix s).
  { intros [|]; cbn; rewrite ?not_elem_of_cons; try split;
      try discriminate; apply not_elem_of_nil. }
  destruct x as [s|s| |s m e]; cbn [format_1f]; rewrite ?not_elem_of_app.
  - split; [apply Hs|]. compute_done.
  - split; [apply Hs|]. compute_done.
  - compute_done.
  - split; [apply Hs|]. split; [apply uint_digits_no_slash|].
    split; [|apply uint_digits_no_slash].
    rewrite not_elem_of_cons. split; [discriminate|apply not_elem_of_nil].
Qed.

Lemma sanitize_no_slash `{PyRuntime} x : SLASH ∉ sanitize_filename_component x.
Proof.
  rewrite sanitize_pointwise. intros Hin.
  apply list_elem_of_fmap in Hin as (c & Hc & _).
  pose proof (sanitize_char_class c) as Hcl. rewrite <- Hc in Hcl. discriminate.
Qed.

(** Joining a directory and a name that does not start with a slash puts
    the name behind the directory, after a slash when the directory is not
    empty and does not end in one. *)
Lemma path_join_relative a b :
  head b <> Some SLASH ->
  exists sep, path_join a b = a ++ sep ++ b /\ (sep = [] \/ (sep = [SLASH] /\ a <> [])).
Proof.
  intros Hb. unfold path_join.
  destruct b as [|c b']; [|destruct (N.eq_dec c 47%N) as [->|Hc]].
  - destruct (last a) as [c|] eqn:E.
    + destruct (N.eq_dec c 47%N) as [->|Hc].
      * exists []. auto.
      * assert (a <> []) by (intros ->; discriminate).
        exists [SLASH]. split; [|auto].
        destruct c as [|p]; [reflexivity|].
        repeat (destruct p as [p|p|]; try reflexivity); exfalso; apply Hc; reflexivity.
    + exists []. auto.
  - exfalso. apply Hb. reflexivity.
  - assert (Hj : forall r : pystr,
              match c :: b' with 47%N :: _ => c :: b' | _ => r end = r).
    { intros r. destruct c as [|p]; [reflexivity|].
      repeat (destruct p as [p|p|]; try reflexivity);
        exfalso; first [apply Hd; reflexivity | apply Hc; reflexivity]. }
    rewrite Hj. destruct (last a) as [d|] eqn:E.
    + destruct (N.eq_dec d 47%N) as [->|Hd].
      * exists []. auto.
      * assert (a <> []) by (intros ->; discriminate).
        exists [SLASH]. split; [|auto].
        destruct d as [|p]; [reflexivity|].
        repeat (destruct p as [p|p|]; try reflexivity);
        exfalso; first [apply Hd; reflexivity | apply Hc; reflexivity].
    + exists []. auto.
Qed.

Section OutputNamer.
Context `{PyRuntime} (env : Env).

(** C8: the file [process_video] creates is at the output directory joined
    with ["<base>_<subject>_<camera>_<label>_<start>s_<end>s.mp4"], a name
    without a slash, so the file is in the output directory itself, where
    base is the source path without its directory part and without its
    extension, subject, camera and label are the sanitized subject, camera
    and label tag, and start and end are [start_sec] and [end_sec] written
    with one decimal place.  The path is a function of these inputs alone:
    neither the world, the mode nor the video enters it. *)
Theorem output_path_is_named vp raw ss es subj cam dir clip w v fw fh s e :
  let base := (splitext (basename vp)).1 in
  let op :=
    output_namer dir base (sanitize_filename_component subj)
      (sanitize_filename_component cam) (sanitize_filename_component (label_tag raw))
      ss es in
  os_path_exists env vp = true ->
  capture_opens env vp = Some v ->
  conversions v ss es = Ok (fw, fh, (s, e)) ->
  writer_opens env op mp4v (effective_fps v) (fw, fh) = true ->
  exists w',
    process_video env vp raw ss es subj cam dir clip w = (Ok tt, w')
    /\ dom (files w') = {[ op ]} ∪ dom (files w)
    /\ (exists sep name,
          op = dir ++ sep ++ name
          /\ (sep = [] \/ (sep = [SLASH] /\ dir <> []))
          /\ (SLASH ∉ name))
    /\ (exists d ext,
          vp = d ++ base ++ ext
          /\ (SLASH ∉ base ++ ext)
          /\ (d = [] \/ last d = Some SLASH)
          /\ (ext = [] \/ exists r, ext = DOT :: r /\ (DOT ∉ r)))
    /\ is_finite ss = true /\ one_decimal ss (format_1f ss)
    /\ is_finite es = true /\ one_decimal es (format_1f es).
Proof.
  intros base op Hex Hcap Hconv Hout.
  eexists. split; [apply process_video_streams; eassumption|].
  cbn [files]. split; [apply dom_insert_L|].
  split.
  { unfold op, output_namer.
    set (name := base ++ _).
    assert (Hname : SLASH ∉ name).
    { unfold name. rewrite !not_elem_of_app.
      destruct (source_name_spec vp) as (d & ext & _ & Hbase & _).
      rewrite not_elem_of_app in Hbase. destruct Hbase as [Hbase _].
      repeat split; auto using sanitize_no_slash, format_1f_no_slash; compute_done. }
    destruct (path_join_relative dir name) as (sep & Hjoin & Hsep).
    { destruct name as [|c name']; [discriminate|].
      intros [= ->]. apply Hname. left. }
    exists sep, name. auto. }
  split; [apply source_name_spec|].
  assert (is_finite ss = true /\ is_finite es = true) as [Hss Hes].
  { unfold conversions in Hconv.
    destruct (int_of_float _); [|discriminate].
    destruct (int_of_float _); [|discriminate].
    destruct (frame_window ss es (effective_fps v)) as [[s' e']|] eqn:Hwin; [|discriminate].
    eapply frame_window_finite, Hwin. }
  auto using format_1f_one_decimal.
Qed.
End OutputNamer.

Lemma output_path_scenario_A :
  exists w',
    @process_video latin1_runtime demo_env demo_path (lit "1")
      (float_of_int 1) (float_of_int 3) (lit "s1") (lit "cam1") (lit "out") true empty_world
    = (Ok tt, w')
    /\ dom (files w') = {[ lit "out/walk_s1_cam1_fall_1.0s_3.0s.mp4" ]} ∪ dom (files empty_world).
Proof.
  destruct (@output_path_is_named latin1_runtime demo_env demo_path (lit "1")
              (float_of_int 1) (float_of_int 3) (lit "s1") (lit "cam1") (lit "out") true
              empty_world demo_video 640 480 10 30)
    as (w' & Hrun & Hdom & _);
    [reflexivity | reflexivity | exact scenario_A_conversions | reflexivity |].
  exists w'. split; [exact Hrun|exact Hdom].
Defined.

(** ** The Segment Mapper *)

(** *** Shifting right with a location *)

Lemma shr_1_nonneg m r s :
  0 <= m ->
  shr_1 {| shr_m := m; shr_r := r; shr_s := s |}
  = {| shr_m := m / 2; shr_r := Z.odd m; shr_s := r || s |}.
Proof.
  intros Hm. destruct m as [|p|p]; [reflexivity| |lia].
  destruct p as [p|p|]; cbn [shr_1 Z.odd].
  - f_equal. rewrite Pos2Z.inj_xI. apply Z.div_unique with 1; lia.
  - f_equal. rewrite Pos2Z.inj_xO. apply Z.div_unique with 0; lia.
  - reflexivity.
Qed.

Lemma shifted_0 M : shifted M 0 = {| shr_m := M; shr_r := false; shr_s := false |}.
Proof.
  unfold shifted. cbn [Z.max Z.sub Z.opp Z.add Z.compare Z.pow Z.pow_pos Pos.iter].
  rewrite Z.div_1_r, Z.mod_1_r. reflexivity.
Qed.

Lemma mod_pow2_succ M k :
  0 <= k ->
  M mod 2 ^ (k + 1) = M mod 2 ^ k + 2 ^ k * Z.b2z (Z.testbit M k).
Proof.
  intros Hk. rewrite Z.pow_add_r, Z.pow_1_r by lia.
  rewrite Z.rem_mul_r by (try apply Z.pow_nonzero; lia).
  now rewrite Z.testbit_spec' by lia.
Qed.

Lemma shr_1_shifted M k :
  0 <= M -> 0 <= k -> shr_1 (shifted M k) = shifted M (k + 1).
Proof.
  intros HM Hk. unfold shifted at 1.
  rewrite shr_1_nonneg by (apply Z.div_pos; [lia|apply Z.pow_pos_nonneg; lia]).
  pose proof (Z.pow_pos_nonneg 2 k ltac:(lia) Hk) as Hp.
  unfold shifted. f_equal.
  - rewrite Z.pow_add_r, Z.pow_1_r by lia.
    rewrite Z.div_div; [reflexivity| lia | lia].
  - replace (k + 1 - 1) with k by lia.
    now rewrite Z.testbit_odd, Z.shiftr_div_pow2 by lia.
  - replace (k + 1 - 1) with k by lia. rewrite (Z.max_r 0 k) by lia.
    destruct (Z.eq_dec k 0) as [->|Hk0].
    + rewrite Z.testbit_neg_r by lia.
      change (Z.max 0 (0 - 1)) with 0. now rewrite Z.pow_0_r, Z.mod_1_r.
    + rewrite Z.max_r by lia.
      replace k with (k - 1 + 1) at 3 by lia.
      rewrite mod_pow2_succ by lia.
      pose proof (Z.mod_pos_bound M (2 ^ (k - 1)) ltac:(apply Z.pow_pos_nonneg; lia)).
      pose proof (Z.pow_pos_nonneg 2 (k - 1) ltac:(lia) ltac:(lia)).
      destruct (Z.testbit M (k - 1)); cbn [Z.b2z orb].
      * symmetry. apply negb_true_iff, Z.eqb_neq. lia.
      * now rewrite Z.mul_0_r, Z.add_0_r.
Qed.

Lemma iter_pos_shifted M : 0 <= M -> forall p k,
  0 <= k -> SpecFloat.iter_pos shr_1 p (shifted M k) = shifted M (k + Z.pos p).
Proof.
  intros HM. induction p as [p IH|p IH|]; intros k Hk; cbn [SpecFloat.iter_pos].
  - rewrite shr_1_shifted, !IH by lia. f_equal. lia.
  - rewrite !IH by lia. f_equal. lia.
  - now apply shr_1_shifted.
Qed.

(** Rounding the quotient by the location is rounding to nearest even. *)
Lemma round_shifted M k :
  0 <= M -> 0 < k ->
  round_nearest_even (shr_m (shifted M k)) (loc_of_shr_record (shifted M k))
  = round_half_even M (2 ^ k).
Proof.
  intros HM Hk.
  assert (exists j, 0 <= j /\ k = j + 1) as (j & Hj & ->) by (exists (k - 1); lia).
  unfold shifted, round_half_even. cbn [shr_m loc_of_shr_record].
  replace (j + 1 - 1) with j by lia. rewrite Z.max_r by lia.
  rewrite mod_pow2_succ by lia.
  replace (2 ^ (j + 1)) with (2 * 2 ^ j)
    by (rewrite Z.pow_add_r, Z.pow_1_r by lia; lia).
  pose proof (Z.mod_pos_bound M (2 ^ j) ltac:(apply Z.pow_pos_nonneg; lia)).
  destruct (Z.testbit M j); cbn [Z.b2z];
    destruct (Z.eqb_spec (M mod 2 ^ j) 0) as [E|E]; cbn [negb round_nearest_even].
  - rewrite E. replace (2 * (0 + 2 ^ j * 1) ?= 2 * 2 ^ j) with Eq
      by (symmetry; apply Z.compare_eq_iff; lia). reflexivity.
  - replace (2 * (M mod 2 ^ j + 2 ^ j * 1) ?= 2 * 2 ^ j) with Gt
      by (symmetry; apply Z.compare_gt_iff; lia). reflexivity.
  - replace (2 * (M mod 2 ^ j + 2 ^ j * 0) ?= 2 * 2 ^ j) with Lt
      by (symmetry; apply Z.compare_lt_iff; lia). reflexivity.
  - replace (2 * (M mod 2 ^ j + 2 ^ j * 0) ?= 2 * 2 ^ j) with Lt
      by (symmetry; apply Z.compare_lt_iff; lia). reflexivity.
Qed.

(** *** Rounding to nearest even, arithmetically *)

Lemma round_half_even_exact q d : 0 < d -> round_half_even (q * d) d = q.
Proof.
  intros Hd. unfold round_half_even.
  rewrite Z.div_mul, Z.mod_mul by lia.
  replace (2 * 0 ?= d) with Lt by (symmetry; apply Z.compare_lt_iff; lia).
  reflexivity.
Qed.

Lemma round_half_even_mono x y d :
  0 < d -> x <= y -> round_half_even x d <= round_half_even y d.
Proof.
  intros Hd Hxy. unfold round_half_even.
  pose proof (Z.div_mod x d ltac:(lia)) as Ex.
  pose proof (Z.div_mod y d ltac:(lia)) as Ey.
  pose proof (Z.mod_pos_bound x d Hd) as Bx.
  pose proof (Z.mod_pos_bound y d Hd) as By.
  pose proof (Z.div_le_mono x y d Hd Hxy) as Hq.
  set (qx := x / d) in *. set (qy := y / d) in *.
  set (rx := x mod d) in *. set (ry := y mod d) in *.
  clearbody qx qy rx ry.
  assert (qx = qy \/ qx + 1 <= qy) as [Eq|Hlt] by lia.
  - subst qx.
    destruct (Z.compare_spec (2 * rx) d), (Z.compare_spec (2 * ry) d);
      destruct (Z.even qy); lia.
  - destruct (Z.compare_spec (2 * rx) d), (Z.compare_spec (2 * ry) d);
      destruct (Z.even qx), (Z.even qy); lia.
Qed.

Lemma round_half_even_scale x d j :
  0 < d -> 0 < j -> round_half_even (x * j) (d * j) = round_half_even x d.
Proof.
  intros Hd Hj. unfold round_half_even.
  rewrite Z.div_mul_cancel_r, Z.mul_mod_distr_r by lia.
  replace (2 * (x mod d * j) ?= d * j) with (2 * (x mod d) ?= d); [reflexivity|].
  destruct (Z.compare_spec (2 * (x mod d)) d),
           (Z.compare_spec (2 * (x mod d * j)) (d * j)); try reflexivity; nia.
Qed.

(** *** Binary digits *)

Lemma digits2_pos_size p : digits2_pos p = Pos.size p.
Proof. induction p; cbn; congruence. Qed.

Lemma Zdigits2_bounds M :
  0 < M -> 2 ^ (Zdigits2 M - 1) <= M < 2 ^ Zdigits2 M.
Proof.
  destruct M as [|p|p]; try lia. intros _. cbn [Zdigits2].
  rewrite digits2_pos_size.
  pose proof (Pos.size_gt p) as Hgt. pose proof (Pos.size_le p) as Hle.
  apply Pos2Z.pos_lt_pos in Hgt. apply Pos2Z.pos_le_pos in Hle.
  rewrite Pos2Z.inj_pow in Hgt, Hle. change (Z.pos p~0) with (2 * Z.pos p) in Hle.
  split; [|exact Hgt].
  replace (Z.pos (Pos.size p)) with (Z.pos (Pos.size p) - 1 + 1) in Hle by lia.
  rewrite Z.pow_add_r, Z.pow_1_r in Hle by lia. lia.
Qed.

Lemma Zdigits2_pos M : 0 < M -> 0 < Zdigits2 M.
Proof. destruct M; cbn; lia. Qed.

Lemma Zdigits2_unique M d :
  2 ^ (d - 1) <= M < 2 ^ d -> 0 < M -> Zdigits2 M = d.
Proof.
  intros [Hlo Hhi] HM. pose proof (Zdigits2_bounds M HM) as [Hlo' Hhi'].
  pose proof (Zdigits2_pos M HM).
  assert (0 < d).
  { destruct (Z.lt_ge_cases 0 d); [done|].
    assert (2 ^ d <= 1); [|lia].
    destruct (Z.eq_dec d 0) as [->|]; [cbn; lia|rewrite Z.pow_neg_r; lia]. }
  assert (d - 1 < Zdigits2 M) by (apply (Z.pow_lt_mono_r_iff 2); lia).
  assert (Zdigits2 M - 1 < d) by (apply (Z.pow_lt_mono_r_iff 2); lia).
  lia.
Qed.

Lemma Zdigits2_mono X Y : 0 < X -> X <= Y -> Zdigits2 X <= Zdigits2 Y.
Proof.
  intros HX HXY.
  pose proof (Zdigits2_bounds X HX). pose proof (Zdigits2_bounds Y ltac:(lia)).
  pose proof (Zdigits2_pos Y ltac:(lia)).
  assert (Zdigits2 X - 1 < Zdigits2 Y) by (apply (Z.pow_lt_mono_r_iff 2); lia).
  lia.
Qed.

Lemma Zdigits2_scale M k : 0 < M -> 0 <= k -> Zdigits2 (M * 2 ^ k) = Zdigits2 M + k.
Proof.
  intros HM Hk. pose proof (Zdigits2_bounds M HM) as [Hlo Hhi].
  pose proof (Zdigits2_pos M HM).
  pose proof (Z.pow_pos_nonneg 2 k ltac:(lia) Hk).
  apply Zdigits2_unique; [|nia].
  replace (Zdigits2 M + k - 1) with (Zdigits2 M - 1 + k) by lia.
  rewrite !Z.pow_add_r by lia. nia.
Qed.

(** *** What [binary_round_aux] computes *)

Lemma fexp64 e : fexp prec emax e = Z.max (e - 53) (-1074).
Proof. reflexivity. Qed.

Lemma shr_nonpos mrs e n : n <= 0 -> shr mrs e n = (mrs, e).
Proof. destruct n; [reflexivity|lia|reflexivity]. Qed.

Lemma shr_pos M e n :
  0 <= M -> 0 < n ->
  shr {| shr_m := M; shr_r := false; shr_s := false |} e n = (shifted M n, e + n).
Proof.
  intros HM Hn. destruct n as [|p|p]; try lia. cbn [shr].
  rewrite <- shifted_0, iter_pos_shifted by lia. reflexivity.
Qed.

(** The second shift of [binary_round_aux]: a mantissa of at most 53 bits
    stays, [2^53] becomes [2^52] with the exponent one higher. *)
Lemma shr_fexp_normal r e :
  0 <= r <= 2 ^ 53 -> -1074 <= e ->
  (r < 2 ^ 53 /\ shr_fexp prec emax r e loc_Exact
                 = ({| shr_m := r; shr_r := false; shr_s := false |}, e))
  \/ (r = 2 ^ 53 /\ shr_fexp prec emax r e loc_Exact
                    = ({| shr_m := 2 ^ 52; shr_r := false; shr_s := false |}, e + 1)).
Proof.
  intros [Hr0 Hr] He. unfold shr_fexp. rewrite fexp64. cbn [shr_record_of_loc].
  destruct (Z.eq_dec r (2 ^ 53)) as [->|Hne].
  - right. split; [reflexivity|].
    change (Zdigits2 (2 ^ 53)) with 54.
    replace (Z.max (54 + e - 53) (-1074) - e) with 1 by lia.
    reflexivity.
  - left. split; [lia|]. apply shr_nonpos.
    destruct (Z.eq_dec r 0) as [->|Hr1]; [cbn [Zdigits2]; lia|].
    pose proof (Zdigits2_bounds r ltac:(lia)) as [Hlo _].
    assert (Zdigits2 r - 1 < 53).
    { apply (Z.pow_lt_mono_r_iff 2); lia. }
    lia.
Qed.

Lemma shiftl_scaled r k L : 0 <= k -> Z.shiftl (r * 2 ^ k) L = Z.shiftl r (k + L).
Proof.
  intros Hk. rewrite <- Z.shiftl_mul_pow2 by lia. apply Z.shiftl_shiftl. lia.
Qed.

Lemma shr_fexp_exact_loc M E :
  0 <= M ->
  shr_fexp prec emax M E loc_Exact
  = if fexp prec emax (Zdigits2 M + E) <=? E
    then ({| shr_m := M; shr_r := false; shr_s := false |}, E)
    else (shifted M (fexp prec emax (Zdigits2 M + E) - E),
          fexp prec emax (Zdigits2 M + E)).
Proof.
  intros HM. unfold shr_fexp. cbn [shr_record_of_loc].
  destruct (Z.leb_spec (fexp prec emax (Zdigits2 M + E)) E).
  - apply shr_nonpos. lia.
  - rewrite shr_pos by lia. f_equal. lia.
Qed.

Lemma shiftl_lt_pow r e p :
  0 <= r < 2 ^ p -> e + p <= 1024 -> Z.shiftl r e < 2 ^ 1024.
Proof.
  intros [Hr0 Hr] Hp.
  assert (0 <= p).
  { destruct (Z.le_gt_cases 0 p); [done|]. rewrite Z.pow_neg_r in Hr; lia. }
  destruct (Z.le_gt_cases 0 e).
  - rewrite Z.shiftl_mul_pow2 by lia.
    apply Z.lt_le_trans with (2 ^ p * 2 ^ e).
    + apply Z.mul_lt_mono_pos_r; [apply Z.pow_pos_nonneg; lia|exact Hr].
    + rewrite <- Z.pow_add_r by lia. apply Z.pow_le_mono_r; lia.
  - rewrite Z.shiftl_div_pow2 by lia.
    apply Z.div_lt_upper_bound; [apply Z.pow_pos_nonneg; lia|].
    rewrite <- Z.pow_add_r by lia.
    eapply Z.lt_le_trans; [exact Hr|]. apply Z.pow_le_mono_r; lia.
Qed.

Lemma shiftl_ge_pow r e p :
  2 ^ p <= r -> 0 <= p -> 0 <= e -> 1024 <= e + p -> 2 ^ 1024 <= Z.shiftl r e.
Proof.
  intros Hr Hp He Hep. rewrite Z.shiftl_mul_pow2 by lia.
  apply Z.le_trans with (2 ^ p * 2 ^ e).
  - rewrite <- Z.pow_add_r by lia. apply Z.pow_le_mono_r; lia.
  - apply Z.mul_le_mono_nonneg_r; [apply Z.pow_nonneg; lia|exact Hr].
Qed.

(** The result of rounding [M * 2^E], for [v] the floor of the rounded
    value: a nonnegative number below [2^1024] whose integer part is [v],
    or, from [2^1024] on, infinity.  The side condition says that a product
    representable as it is has a representable exponent; products of
    binary64 values meet it. *)
Lemma binary_round_aux_spec M E L :
  0 < M -> L <= E ->
  (fexp prec emax (Zdigits2 M + E) <= E -> E <= 971) ->
  let res := binary_round_aux prec emax false M E loc_Exact in
  let v := Z.shiftl (round_scaled (M * 2 ^ (E - L)) L) L in
  (v < 2 ^ 1024 /\ is_finite res = true /\ int_of_float res = Ok v)
  \/ (2 ^ 1024 <= v /\ res = S754_infinity false).
Proof.
  intros HM HL Hexact res v. subst res v. unfold round_scaled, round_shift.
  rewrite Zdigits2_scale by lia.
  replace (Zdigits2 M + (E - L) + L) with (Zdigits2 M + E) by lia.
  unfold binary_round_aux. rewrite (shr_fexp_exact_loc M E) by lia.
  revert Hexact. rewrite fexp64.
  set (c := Z.max (Zdigits2 M + E - 53) (-1074)). intros Hexact.
  pose proof (Zdigits2_bounds M HM) as [Hlo Hhi].
  pose proof (Zdigits2_pos M HM) as Hd.
  destruct (Z.le_gt_cases c E) as [HcE|HcE].
  - (* the product is representable as it is *)
    replace (c <=? E) with true by (symmetry; apply Z.leb_le; lia).
    cbn [shr_m loc_of_shr_record round_nearest_even].
    assert (HM53 : M < 2 ^ 53).
    { eapply Z.lt_le_trans; [exact Hhi|]. apply Z.pow_le_mono_r; lia. }
    destruct (shr_fexp_normal M E ltac:(lia) ltac:(lia)) as [[_ ->]|[? _]]; [|lia].
    cbn [shr_m].
    assert (Hk : 0 <= Z.max 0 (c - L) <= E - L) by lia.
    set (k := Z.max 0 (c - L)) in *.
    replace (M * 2 ^ (E - L)) with (M * 2 ^ (E - L - k) * 2 ^ k).
    2: { rewrite <- Z.mul_assoc, <- Z.pow_add_r by lia. do 2 f_equal. lia. }
    rewrite round_half_even_exact by (apply Z.pow_pos_nonneg; lia).
    rewrite !shiftl_scaled by lia.
    replace (E - L - k + (k + L)) with E by lia.
    left. split; [apply (shiftl_lt_pow M E 53); lia|].
    destruct M as [|m|m]; try lia.
    replace (E <=? emax - prec) with true
      by (symmetry; apply Z.leb_le; unfold emax, prec; lia).
    split; reflexivity.
  - (* the low [c - E] bits are rounded away *)
    replace (c <=? E) with false by (symmetry; apply Z.leb_gt; lia).
    rewrite round_shifted by lia.
    set (r := round_half_even M (2 ^ (c - E))).
    pose proof (Z.pow_pos_nonneg 2 (c - E) ltac:(lia) ltac:(lia)) as Hp.
    assert (Hr : 0 <= r <= 2 ^ 53).
    { split; [apply round_half_even_nonneg; lia|].
      apply Z.le_trans with (round_half_even (2 ^ 53 * 2 ^ (c - E)) (2 ^ (c - E)));
        [|rewrite round_half_even_exact by lia; lia].
      apply round_half_even_mono; [lia|].
      rewrite <- Z.pow_add_r by lia.
      apply Z.lt_le_incl. eapply Z.lt_le_trans; [exact Hhi|].
      apply Z.pow_le_mono_r; lia. }
    assert (Hbig : 971 < c -> 2 ^ 52 <= r).
    { intros Hc.
      apply Z.le_trans with (round_half_even (2 ^ 52 * 2 ^ (c - E)) (2 ^ (c - E)));
        [rewrite round_half_even_exact by lia; lia|].
      apply round_half_even_mono; [lia|].
      rewrite <- Z.pow_add_r by lia.
      replace (52 + (c - E)) with (Zdigits2 M - 1) by lia. exact Hlo. }
    assert (Hscaled : round_half_even (M * 2 ^ (E - L)) (2 ^ Z.max 0 (c - L)) = r).
    { replace (Z.max 0 (c - L)) with (c - E + (E - L)) by lia.
      rewrite Z.pow_add_r by lia.
      apply round_half_even_scale; apply Z.pow_pos_nonneg; lia. }
    rewrite Hscaled.
    assert (Hfloor : Z.shiftl (r * 2 ^ Z.max 0 (c - L)) L = Z.shiftl r c).
    { rewrite shiftl_scaled by lia. f_equal. lia. }
    rewrite Hfloor.
    destruct (shr_fexp_normal r c Hr ltac:(lia)) as [[Hlt ->]|[Hr53 ->]]; cbn [shr_m].
    + destruct (Z.leb_spec c (emax - prec)) as [Hce|Hce]; unfold emax, prec in Hce.
      * left. split; [apply (shiftl_lt_pow r c 53); lia|].
        destruct r as [|m|m]; [|split; reflexivity|lia].
        rewrite Z.shiftl_0_l. split; reflexivity.
      * right. split; [apply (shiftl_ge_pow r c 52); lia|].
        destruct r as [|m|m]; [|reflexivity|lia].
        specialize (Hbig ltac:(lia)). lia.
    + subst r. rewrite Hr53. change (2 ^ 52) with (Z.pos (2 ^ 52)).
      destruct (Z.leb_spec (c + 1) (emax - prec)) as [Hce|Hce]; unfold emax, prec in Hce.
      * left. split; [apply (shiftl_lt_pow (2 ^ 53) c 54); [cbn|]; lia|].
        split; [reflexivity|]. cbn [int_of_float]. f_equal.
        change (Z.pos (2 ^ 52)) with (2 ^ 52).
        change (2 ^ 53) with (2 ^ 52 * 2 ^ 1).
        rewrite shiftl_scaled by lia. f_equal. lia.
      * right. split; [apply (shiftl_ge_pow (2 ^ 53) c 53); lia|reflexivity].
Qed.

(** *** Rounding is monotone *)

Lemma round_shift_mono X Y L : 0 < X -> X <= Y -> round_shift X L <= round_shift Y L.
Proof.
  intros HX HXY. unfold round_shift. rewrite !fexp64.
  pose proof (Zdigits2_mono X Y HX HXY). lia.
Qed.

Lemma round_scaled_mono X Y L :
  0 < X -> X <= Y -> round_scaled X L <= round_scaled Y L.
Proof.
  intros HX HXY. pose proof (round_shift_mono X Y L HX HXY) as Hk.
  unfold round_scaled.
  assert (HkX : 0 <= round_shift X L) by (unfold round_shift; lia).
  pose proof (Z.pow_pos_nonneg 2 (round_shift X L) ltac:(lia) HkX) as HpX.
  pose proof (Z.pow_pos_nonneg 2 (round_shift Y L) ltac:(lia) ltac:(lia)) as HpY.
  destruct (Z.eq_dec (round_shift X L) (round_shift Y L)) as [E|Hne].
  - rewrite E in *. apply Z.mul_le_mono_nonneg_r; [lia|].
    now apply round_half_even_mono.
  - pose proof (Zdigits2_bounds X HX) as [_ HhiX].
    pose proof (Zdigits2_bounds Y ltac:(lia)) as [HloY _].
    pose proof (Zdigits2_mono X Y HX HXY) as Hd.
    assert (HkY : round_shift Y L = Zdigits2 Y - 53).
    { unfold round_shift in *. rewrite !fexp64 in *. lia. }
    assert (HdX : Zdigits2 X <= 53 + round_shift X L).
    { unfold round_shift. rewrite fexp64. lia. }
    pose proof (Zdigits2_pos X HX).
    transitivity (2 ^ 53 * 2 ^ round_shift X L).
    + apply Z.mul_le_mono_nonneg_r; [lia|].
      apply Z.le_trans with (round_half_even (2 ^ 53 * 2 ^ round_shift X L)
                               (2 ^ round_shift X L));
        [|rewrite round_half_even_exact by lia; lia].
      apply round_half_even_mono; [lia|].
      rewrite <- Z.pow_add_r by lia.
      apply Z.lt_le_incl. eapply Z.lt_le_trans; [exact HhiX|].
      apply Z.pow_le_mono_r; lia.
    + transitivity (2 ^ 52 * 2 ^ round_shift Y L).
      * rewrite <- !Z.pow_add_r by lia. apply Z.pow_le_mono_r; lia.
      * apply Z.mul_le_mono_nonneg_r; [lia|].
        apply Z.le_trans with (round_half_even (2 ^ 52 * 2 ^ round_shift Y L)
                                 (2 ^ round_shift Y L));
          [rewrite round_half_even_exact by lia; lia|].
        apply round_half_even_mono; [lia|].
        rewrite <- Z.pow_add_r by lia.
        replace (52 + round_shift Y L) with (Zdigits2 Y - 1) by lia. exact HloY.
Qed.

Lemma shiftl_mono A B L : A <= B -> Z.shiftl A L <= Z.shiftl B L.
Proof.
  intros HAB. destruct (Z.le_gt_cases 0 L).
  - rewrite !Z.shiftl_mul_pow2 by lia.
    apply Z.mul_le_mono_nonneg_r; [apply Z.pow_nonneg; lia|exact HAB].
  - rewrite !Z.shiftl_div_pow2 by lia.
    apply Z.div_le_mono; [apply Z.pow_pos_nonneg; lia|exact HAB].
Qed.

Lemma round_scaled_nonneg X L : 0 <= X -> 0 <= round_scaled X L.
Proof.
  intros HX. unfold round_scaled.
  assert (0 <= round_shift X L) by (unfold round_shift; lia).
  pose proof (Z.pow_pos_nonneg 2 (round_shift X L) ltac:(lia) ltac:(lia)).
  apply Z.mul_nonneg_nonneg; [apply round_half_even_nonneg|]; lia.
Qed.

(** *** The order of binary64 values *)

Lemma bounded_canonical m e :
  bounded prec emax m e = true ->
  e = Z.max (Z.pos (digits2_pos m) + e - 53) (-1074).
Proof.
  unfold bounded, canonical_mantissa. rewrite fexp64.
  intros Hb. apply andb_true_iff in Hb as [Hb _]. apply Z.eqb_eq in Hb. lia.
Qed.

(** For canonical mantissas and exponents, [<=] on floats is [<=] on the
    values [m * 2^e]. *)
Lemma fleb_values ma ea mb eb :
  bounded prec emax ma ea = true ->
  bounded prec emax mb eb = true ->
  fleb (S754_finite false ma ea) (S754_finite false mb eb) = true ->
  Z.pos ma * 2 ^ (ea - Z.min ea eb) <= Z.pos mb * 2 ^ (eb - Z.min ea eb).
Proof.
  intros Ha Hb. apply bounded_canonical in Ha, Hb.
  unfold fleb, SFleb, SFcompare.
  pose proof (Zdigits2_bounds (Z.pos ma) ltac:(lia)) as [Hloa Hhia].
  pose proof (Zdigits2_bounds (Z.pos mb) ltac:(lia)) as [Hlob Hhib].
  cbn [Zdigits2] in *.
  destruct (Z.compare_spec ea eb) as [->|Hlt|Hgt]; [| |discriminate].
  - rewrite Z.min_id, Z.sub_diag, Z.pow_0_r, !Z.mul_1_r.
    rewrite Pos.compare_cont_spec; cbn [Pos.switch_Eq].
    destruct (Pos.compare_spec ma mb); try discriminate; lia.
  - intros _. rewrite Z.min_l, Z.sub_diag, Z.pow_0_r, Z.mul_1_r by lia.
    assert (Hdb : Z.pos (digits2_pos mb) = 53) by lia.
    assert (Hda : Z.pos (digits2_pos ma) <= 53) by lia.
    rewrite Hdb in Hlob. change (2 ^ (53 - 1)) with (2 ^ 52) in Hlob.
    assert (Z.pos ma < 2 ^ 53).
    { eapply Z.lt_le_trans; [exact Hhia|]. apply Z.pow_le_mono_r; lia. }
    assert (2 ^ 1 <= 2 ^ (eb - ea)) by (apply Z.pow_le_mono_r; lia).
    change (2 ^ 1) with 2 in *. change (2 ^ 53) with (2 * 2 ^ 52) in *. nia.
Qed.


Lemma int_of_float_floor x :
  is_finite x = true -> negative x = false -> int_of_float x = Ok (floor_value x).
Proof.
  destruct x as [s|s| |s m e]; try discriminate; [reflexivity|].
  intros _ Hs. cbn in Hs. subst s. cbn [int_of_float floor_value cond_Zopp].
  f_equal. destruct (Z.le_gt_cases 0 e).
  - rewrite Z.shiftl_mul_pow2, Z.max_l, Z.max_r by lia.
    now rewrite Z.pow_0_r, Z.div_1_r.
  - rewrite Z.shiftl_div_pow2, Z.max_r, Z.max_l by lia.
    now rewrite Z.pow_0_r, Z.mul_1_r.
Qed.

Lemma binary_round_aux_nonneg M E l :
  negative (binary_round_aux prec emax false M E l) = false.
Proof.
  unfold binary_round_aux.
  destruct (shr_fexp prec emax M E l) as [mrs e].
  destruct (shr_fexp prec emax _ e loc_Exact) as [mrs' e'].
  destruct (shr_m mrs'); [reflexivity| |reflexivity].
  destruct (e' <=? emax - prec); reflexivity.
Qed.

Lemma digits_product ma mf :
  Zdigits2 (Z.pos ma) + Zdigits2 (Z.pos mf) - 1 <= Zdigits2 (Z.pos (ma * mf)).
Proof.
  pose proof (Zdigits2_bounds (Z.pos ma) ltac:(lia)) as [Ha _].
  pose proof (Zdigits2_bounds (Z.pos mf) ltac:(lia)) as [Hf _].
  pose proof (Zdigits2_bounds (Z.pos (ma * mf)) ltac:(lia)) as [_ Hp].
  pose proof (Zdigits2_pos (Z.pos ma) ltac:(lia)).
  pose proof (Zdigits2_pos (Z.pos mf) ltac:(lia)).
  pose proof (Zdigits2_pos (Z.pos (ma * mf)) ltac:(lia)).
  assert (2 ^ (Zdigits2 (Z.pos ma) - 1 + (Zdigits2 (Z.pos mf) - 1)) <= Z.pos (ma * mf)).
  { rewrite Z.pow_add_r, Pos2Z.inj_mul by lia.
    apply Z.mul_le_mono_nonneg; try lia; apply Z.pow_nonneg; lia. }
  assert (Zdigits2 (Z.pos ma) - 1 + (Zdigits2 (Z.pos mf) - 1) < Zdigits2 (Z.pos (ma * mf))).
  { apply (Z.pow_lt_mono_r_iff 2); lia. }
  lia.
Qed.

(** A product of binary64 values that needs no rounding has an exponent
    that is representable. *)
Lemma product_exact_exponent ma ea mf ef :
  bounded prec emax ma ea = true ->
  bounded prec emax mf ef = true ->
  fexp prec emax (Zdigits2 (Z.pos (ma * mf)) + (ea + ef)) <= ea + ef ->
  ea + ef <= 971.
Proof.
  intros Ha Hf. rewrite fexp64. intros Hc.
  pose proof (bounded_canonical _ _ Ha) as Hca.
  pose proof (bounded_canonical _ _ Hf) as Hcf.
  unfold bounded in Ha, Hf.
  apply andb_true_iff in Ha as [_ Ha]. apply andb_true_iff in Hf as [_ Hf].
  apply Z.leb_le in Ha, Hf. unfold emax, prec in Ha, Hf.
  pose proof (digits_product ma mf) as Hd. cbn [Zdigits2] in *.
  lia.
Qed.

Lemma fmul_finite_pos ma ea mf ef :
  fmul (S754_finite false ma ea) (S754_finite false mf ef)
  = binary_round_aux prec emax false (Z.pos (ma * mf)) (ea + ef) loc_Exact.
Proof. reflexivity. Qed.

(** Multiplying by a positive float, then truncating, is monotone on the
    nonnegative floats, and does not overflow below a product that does
    not. *)
Lemma int_fmul_mono ma ea mb eb mf ef :
  bounded prec emax ma ea = true ->
  bounded prec emax mb eb = true ->
  bounded prec emax mf ef = true ->
  fleb (S754_finite false ma ea) (S754_finite false mb eb) = true ->
  is_finite (fmul (S754_finite false mb eb) (S754_finite false mf ef)) = true ->
  exists s e,
    int_of_float (fmul (S754_finite false ma ea) (S754_finite false mf ef)) = Ok s
    /\ int_of_float (fmul (S754_finite false mb eb) (S754_finite false mf ef)) = Ok e
    /\ 0 <= s <= e.
Proof.
  intros Ha Hb Hf Hab Hfin. rewrite !fmul_finite_pos in *.
  set (L := Z.min ea eb + ef).
  pose proof (fleb_values _ _ _ _ Ha Hb Hab) as Hval.
  assert (HXY : Z.pos (ma * mf) * 2 ^ (ea + ef - L) <= Z.pos (mb * mf) * 2 ^ (eb + ef - L)).
  { replace (ea + ef - L) with (ea - Z.min ea eb) by (unfold L; lia).
    replace (eb + ef - L) with (eb - Z.min ea eb) by (unfold L; lia).
    rewrite !Pos2Z.inj_mul.
    rewrite <- !(Z.mul_assoc _ (Z.pos mf)), !(Z.mul_comm (Z.pos mf)), !Z.mul_assoc.
    apply Z.mul_le_mono_nonneg_r; [lia|exact Hval]. }
  assert (HX : 0 < Z.pos (ma * mf) * 2 ^ (ea + ef - L)).
  { apply Z.mul_pos_pos; [lia|apply Z.pow_pos_nonneg; unfold L; lia]. }
  pose proof (round_scaled_mono _ _ L HX HXY) as Hmono.
  apply (shiftl_mono _ _ L) in Hmono.
  pose proof (round_scaled_nonneg (Z.pos (ma * mf) * 2 ^ (ea + ef - L)) L ltac:(lia)) as H0.
  apply (Z.shiftl_nonneg _ L) in H0.
  destruct (binary_round_aux_spec (Z.pos (mb * mf)) (eb + ef) L ltac:(lia)
              ltac:(unfold L; lia) (product_exact_exponent _ _ _ _ Hb Hf))
    as [(Hvb & _ & Hib)|(_ & Hinf)]; [|rewrite Hinf in Hfin; discriminate].
  destruct (binary_round_aux_spec (Z.pos (ma * mf)) (ea + ef) L ltac:(lia)
              ltac:(unfold L; lia) (product_exact_exponent _ _ _ _ Ha Hf))
    as [(Hva & _ & Hia)|(Hbig & _)]; [|lia].
  eexists _, _. split; [exact Hia|]. split; [exact Hib|]. lia.
Qed.

Lemma int_fmul_nonneg mb eb mf ef e :
  int_of_float (fmul (S754_finite false mb eb) (S754_finite false mf ef)) = Ok e ->
  0 <= e.
Proof.
  rewrite fmul_finite_pos.
  pose proof (binary_round_aux_nonneg (Z.pos (mb * mf)) (eb + ef) loc_Exact) as Hs.
  destruct (binary_round_aux _ _ _ _ _ _) as [s|s| |s m x]; cbn in *; try discriminate.
  - intros [= <-]. lia.
  - subst s. intros [= <-]. apply Z.shiftl_nonneg. lia.
Qed.

Lemma int_fmul_floor ma ea mf ef n :
  int_of_float (fmul (S754_finite false ma ea) (S754_finite false mf ef)) = Ok n ->
  n = floor_value (fmul (S754_finite false ma ea) (S754_finite false mf ef)).
Proof.
  intros Hn. pose proof (int_of_float_ok _ _ Hn) as Hfin.
  rewrite int_of_float_floor in Hn; [congruence|exact Hfin|].
  rewrite fmul_finite_pos. apply binary_round_aux_nonneg.
Qed.

(** C4, as amended: for binary64 values [0 <= a <= b] and [fps > 0] whose
    product [b * fps], rounded as the multiplication of floats rounds it,
    is finite, the Segment Mapper returns the window of the floors of
    [a * fps] and [b * fps] (truncation, which on these nonnegative products
    is the floor), and [0 <= start_frame <= end_frame]; the windows of
    (0, 0, 30) and (1.0, 2.5, 10) are (0, 0) and (10, 25). *)
Theorem frame_window_inclusive :
  (forall a b fps : float,
     is_binary64 a = true -> is_binary64 b = true -> is_binary64 fps = true ->
     fleb (float_of_int 0) a = true -> fleb a b = true ->
     fltb (float_of_int 0) fps = true ->
     is_finite (fmul b fps) = true ->
     exists start_frame end_frame,
       frame_window a b fps = Ok (start_frame, end_frame)
       /\ start_frame = floor_value (fmul a fps)
       /\ end_frame = floor_value (fmul b fps)
       /\ 0 <= start_frame <= end_frame)
  /\ frame_window (float_of_int 0) (float_of_int 0) (float_of_int 30) = Ok (0, 0)
  /\ frame_window (float_of_int 1) (float_of_dyadic 5 (-1)) (float_of_int 10) = Ok (10, 25).
Proof.
  split; [|split; vm_compute; reflexivity].
  intros a b fps Ha Hb Hf H0a Hab H0f Hfin.
  change (float_of_int 0) with (S754_zero false) in H0a, H0f.
  pose proof Hab as Hab'.
  unfold fleb, fltb, SFleb, SFltb in H0a, Hab', H0f.
  destruct fps as [sf|sf| |[|] mf ef]; cbn in H0f; try discriminate.
  { destruct sf; [discriminate|]. destruct b; discriminate. }
  destruct b as [sb|sb| |sb mb eb].
  - (* the end is zero: so is the start *)
    destruct a as [sa|[|]| |[|] ma ea]; cbn in H0a, Hab'; try discriminate.
    exists 0, 0. repeat split; try reflexivity; lia.
  - discriminate.
  - destruct a; discriminate.
  - destruct sb.
    { destruct a as [sa|[|]| |[|] ma ea]; cbn in H0a, Hab'; discriminate. }
    destruct a as [sa|[|]| |[|] ma ea]; cbn in H0a; try discriminate.
    all: clear Hab'.
    + (* the start is zero *)
      pose proof (binary_round_aux_nonneg (Z.pos (mb * mf)) (eb + ef) loc_Exact) as Hs.
      rewrite <- fmul_finite_pos in Hs.
      pose proof (int_of_float_floor _ Hfin Hs) as He.
      exists 0, (floor_value (fmul (S754_finite false mb eb) (S754_finite false mf ef))).
      unfold frame_window. rewrite He.
      repeat split; try reflexivity. eapply int_fmul_nonneg, He.
    + (* both are positive *)
      destruct (int_fmul_mono ma ea mb eb mf ef Ha Hb Hf Hab Hfin)
        as (s & e & Hs & He & Hle).
      exists s, e. unfold frame_window. rewrite Hs, He.
      split; [reflexivity|]. split; [eapply int_fmul_floor, Hs|].
      split; [eapply int_fmul_floor, He|exact Hle].
Qed.

(** C4, as stated, fails: for [a = b = 2^1023] seconds and 30 frames per
    second the product overflows to infinity and [int] raises
    [OverflowError]: no window is returned. *)
Lemma frame_window_overflows :
  is_binary64 huge_seconds = true
  /\ is_binary64 (float_of_int 30) = true
  /\ fleb (float_of_int 0) huge_seconds = true
  /\ fleb huge_seconds huge_seconds = true
  /\ fltb (float_of_int 0) (float_of_int 30) = true
  /\ frame_window huge_seconds huge_seconds (float_of_int 30) = Raised OverflowError.
Proof. repeat split; vm_compute; reflexivity. Qed.

Lemma frame_window_example :
  frame_window (float_of_int 1) (float_of_dyadic 5 (-1)) (float_of_int 10) = Ok (10, 25).
Proof.
  destruct (proj1 frame_window_inclusive (float_of_int 1) (float_of_dyadic 5 (-1))
              (float_of_int 10))
    as (s & e & Hrun & Hs & He & _);
    [reflexivity | reflexivity | reflexivity | reflexivity | reflexivity
    | reflexivity | reflexivity |].
  rewrite Hrun, Hs, He. vm_compute. reflexivity.
Defined.

(** ** More about [process_video] *)

Section Outcomes.
Context `{PyRuntime} (env : Env).

(** The five ways [process_video] ends. *)
Lemma process_video_cases vp raw ss es subj cam dir clip w :
  let op := output_video_path vp (label_tag raw) ss es subj cam dir in
  let run := process_video env vp raw ss es subj cam dir clip w in
  (os_path_exists env vp = false
   /\ run = (Ok tt, add_log (label_warnings raw ++ [(ERROR, VideoNotFound vp)]) w))
  \/ (os_path_exists env vp = true /\ capture_opens env vp = None
      /\ run = (Ok tt, add_log (label_warnings raw ++ [(ERROR, CouldNotOpenVideo vp)]) w))
  \/ (exists v x,
        os_path_exists env vp = true /\ capture_opens env vp = Some v
        /\ conversions v ss es = Raised x
        /\ run = (Raised x,
                  {| open_captures := vp :: open_captures w;
                     open_writers := open_writers w;
                     files := files w;
                     log := log w ++ label_warnings raw ++ fps_errors vp v |}))
  \/ (exists v fw fh s e,
        os_path_exists env vp = true /\ capture_opens env vp = Some v
        /\ conversions v ss es = Ok (fw, fh, (s, e))
        /\ writer_opens env op mp4v (effective_fps v) (fw, fh) = false
        /\ run = (Ok tt,
                  add_log (label_warnings raw ++ fps_errors vp v
                           ++ [(ERROR, CouldNotOpenWriter op)]) w))
  \/ (exists v fw fh s e,
        os_path_exists env vp = true /\ capture_opens env vp = Some v
        /\ conversions v ss es = Ok (fw, fh, (s, e))
        /\ writer_opens env op mp4v (effective_fps v) (fw, fh) = true
        /\ run = (Ok tt,
                  {| open_captures := open_captures w;
                     open_writers := open_writers w;
                     files := <[ op := {| vf_fourcc := mp4v; vf_fps := effective_fps v;
                                          vf_frameSize := (fw, fh);
                                          vf_frames :=
                                            emitted_frames (label_tag raw) s e clip
                                              (frames v) 0 |} ]> (files w);
                     log := log w ++ label_warnings raw ++ fps_errors vp v
                            ++ [ (INFO, Processing vp op);
                                 (INFO, if clip then SavingClipOnly (label_tag raw) raw ss es
                                        else LabelFromTo (label_tag raw) raw s ss e es);
                                 if 0 <? Z.of_nat (length (emitted_frames (label_tag raw) s e
                                                             clip (frames v) 0))
                                 then (INFO, Saved op)
                                 else (WARNING, NoFramesWritten op) ] |})).
Proof.
  intros op run. subst run.
  destruct (os_path_exists env vp) eqn:Hex.
  2: { left. split; [done|]. now apply process_video_missing. }
  destruct (capture_opens env vp) as [v|] eqn:Hcap.
  2: { right; left. repeat split. now apply process_video_unopenable. }
  destruct (conversions v ss es) as [[[fw fh] [s e]]|x] eqn:Hconv.
  2: { right; right; left. exists v, x. repeat split; try done.
       eapply process_video_raises; eassumption. }
  destruct (writer_opens env op mp4v (effective_fps v) (fw, fh)) eqn:Hout.
  - do 4 right. exists v, fw, fh, s, e. repeat split; try done.
    eapply process_video_streams; eassumption.
  - do 3 right; left. exists v, fw, fh, s, e. repeat split; try done.
    eapply process_video_writer_fails; eassumption.
Qed.

(** X2: whatever its arguments and however it ends, by returning or by
    raising, [process_video] removes no file and leaves every file but the
    one at its output path as it was. *)
Theorem process_video_touches_only_its_output vp raw ss es subj cam dir clip w :
  let w' := (process_video env vp raw ss es subj cam dir clip w).2 in
  let op := output_video_path vp (label_tag raw) ss es subj cam dir in
  (forall p, is_Some (files w !! p) -> is_Some (files w' !! p))
  /\ (forall p, p <> op -> files w' !! p = files w !! p).
Proof.
  intros w' op. subst w'.
  destruct (process_video_cases vp raw ss es subj cam dir clip w)
    as [[_ ->]|[(_ & _ & ->)|[(v & x & _ & _ & _ & ->)|[(v & fw & fh & s & e & _ & _ & _ & _ & ->)
       |(v & fw & fh & s & e & _ & _ & _ & _ & ->)]]]]; cbn [snd add_log files]; try done.
  fold op. split.
  - intros p Hp. destruct (decide (p = op)) as [->|Hne].
    + rewrite lookup_insert_eq. eauto.
    + now rewrite lookup_insert_ne.
  - intros p Hne. now rewrite lookup_insert_ne.
Qed.

(** X3: running [process_video] again with the same arguments, with the
    system answering as before, leaves the files and the open writers as
    the first run left them: the output is written over with the same
    content, not appended to. *)
Theorem process_video_again_same_files vp raw ss es subj cam dir clip w :
  let run := fun w => (process_video env vp raw ss es subj cam dir clip w).2 in
  files (run (run w)) = files (run w)
  /\ open_writers (run (run w)) = open_writers (run w).
Proof.
  intros run. subst run. cbn beta.
  set (w1 := (process_video env vp raw ss es subj cam dir clip w).2).
  destruct (process_video_cases vp raw ss es subj cam dir clip w1)
    as [[_ ->]|[(_ & _ & ->)|[(v & x & _ & _ & _ & ->)|[(v & fw & fh & s & e & _ & _ & _ & _ & ->)
       |(v & fw & fh & s & e & Hex & Hcap & Hconv & Hout & ->)]]]];
    cbn [snd add_log files open_writers]; try done.
  split; [|done]. subst w1.
  destruct (process_video_cases vp raw ss es subj cam dir clip w)
    as [[E _]|[(_ & E & _)|[(v' & x & _ & E & E' & _)|[(v' & fw' & fh' & s' & e' & _ & E & E' & E'' & _)
       |(v' & fw' & fh' & s' & e' & _ & E & E' & _ & ->)]]]].
  - congruence.
  - congruence.
  - rewrite Hcap in E. inversion E; subst. congruence.
  - rewrite Hcap in E. inversion E; subst. rewrite Hconv in E'. inversion E'; subst.
    cbv zeta in Hout, E''. congruence.
  - rewrite Hcap in E. inversion E; subst. rewrite Hconv in E'. inversion E'; subst.
    cbn [snd files]. apply insert_insert_eq.
Qed.
End Outcomes.

(** *** The name of the output *)

Lemma path_join_dir a b :
  head b <> Some SLASH ->
  exists d, path_join a b = d ++ b /\ (d = [] \/ last d = Some SLASH).
Proof.
  intros Hb. unfold path_join.
  assert (Hgen : exists d, match last a with
                           | None | Some 47%N => a ++ b
                           | Some _ => a ++ [SLASH] ++ b
                           end = d ++ b /\ (d = [] \/ last d = Some SLASH)).
  { destruct (last a) as [c|] eqn:Hl.
    - destruct (decide (c = 47%N)) as [->|Hc].
      + exists a. split; [done|]. now right.
      + exists (a ++ [SLASH]). split.
        * rewrite <- app_assoc.
          destruct c as [|p]; [done|].
          do 6 (destruct p as [p|p|]; try done).
        * right. now rewrite last_snoc.
    - exists a. split; [done|]. left. now apply last_None. }
  destruct b as [|c b']; [exact Hgen|].
  destruct (decide (c = 47%N)) as [->|Hc]; [now destruct Hb|].
  destruct c as [|p]; [exact Hgen|].
  do 6 (destruct p as [p|p|]; try exact Hgen). now destruct Hc.
Qed.

Lemma basename_app d b :
  (d = [] \/ last d = Some SLASH) -> SLASH ∉ b -> basename (d ++ b) = b.
Proof.
  intros Hd Hb.
  destruct (basename_spec (d ++ b)) as (d' & Heq & Hb' & Hd').
  set (b' := basename (d ++ b)) in *. clearbody b'.
  apply app_eq_inv in Heq as [(k & -> & ->)|(k & -> & ->)].
  - destruct (decide (k = [])) as [->|Hk]; [now rewrite app_nil_l|].
    apply exists_last in Hk as (k' & c & ->).
    exfalso. destruct Hd as [Hd|Hd].
    + apply (f_equal length) in Hd. rewrite !length_app in Hd. cbn in Hd. lia.
    + rewrite app_assoc, last_snoc in Hd. inversion Hd; subst.
      apply Hb'. rewrite !elem_of_app, list_elem_of_singleton. tauto.
  - destruct (decide (k = [])) as [->|Hk]; [now rewrite app_nil_l|].
    apply exists_last in Hk as (k' & c & ->).
    exfalso. destruct Hd' as [Hd'|Hd'].
    + apply (f_equal length) in Hd'. rewrite !length_app in Hd'. cbn in Hd'. lia.
    + rewrite app_assoc, last_snoc in Hd'. inversion Hd'; subst.
      apply Hb. rewrite !elem_of_app, list_elem_of_singleton. tauto.
Qed.

Lemma rfind_absent c s : c ∉ s -> rfind c s = -1.
Proof.
  intros Hc. destruct (rfind_spec c s) as [[-> _]|(k & _ & Hk & _)]; [done|].
  exfalso. apply Hc. eapply list_elem_of_lookup_2, Hk.
Qed.

Lemma rfind_last c x r : c ∉ r -> rfind c (x ++ c :: r) = Z.of_nat (length x).
Proof.
  intros Hr. destruct (rfind_spec c (x ++ c :: r)) as [[_ Hno]|(k & -> & Hk & Hafter)].
  { exfalso. apply Hno. set_solver. }
  f_equal. destruct (Nat.lt_trichotomy k (length x)) as [Hlt|[->|Hgt]]; [|done|].
  - exfalso. apply Hafter.
    apply list_elem_of_lookup. exists (length x - S k)%nat.
    rewrite lookup_drop.
    replace (S k + (length x - S k))%nat with (length x) by lia.
    now rewrite list_lookup_middle.
  - exfalso. apply Hr.
    unfold pystr in Hk. rewrite lookup_app_r in Hk by lia.
    destruct (k - length x)%nat as [|j] eqn:Hj; [lia|]. cbn in Hk.
    eapply list_elem_of_lookup_2, Hk.
Qed.

(** A name that ends in [".mp4"] after a character that is not a dot
    splits there. *)
Lemma splitext_mp4 x :
  SLASH ∉ x -> (exists c, c ∈ x /\ c <> DOT) ->
  splitext (x ++ lit ".mp4") = (x, lit ".mp4").
Proof.
  intros Hs (c & Hc & Hne). unfold splitext.
  assert (Hmp4 : SLASH ∉ lit ".mp4") by compute_done.
  rewrite (rfind_absent SLASH) by (rewrite elem_of_app; tauto).
  change (lit ".mp4") with (DOT :: lit "mp4").
  rewrite rfind_last by compute_done.
  unfold slice, slice_to, slice_from. rewrite !Nat2Z.id. cbn [Z.add Z.to_nat drop].
  rewrite take_app_length, drop_app_length.
  replace (-1 <? Z.of_nat (length x)) with true by (symmetry; apply Z.ltb_lt; lia).
  change (Z.to_nat (-1 + 1)) with 0%nat. rewrite drop_0.
  replace (existsb (fun c => negb (c =? DOT)%N) x) with true; [reflexivity|].
  symmetry. apply existsb_exists. exists c. split; [now apply list_elem_of_In|].
  apply negb_true_iff, N.eqb_neq. exact Hne.
Qed.

Section Names.
Context `{PyRuntime}.

(** The file name of the output: the stem of the source and the tags. *)
Lemma output_video_path_name vp label ss es subj cam dir :
  let stem :=
    (splitext (basename vp)).1 ++ lit "_" ++ sanitize_filename_component subj ++ lit "_"
      ++ sanitize_filename_component cam ++ lit "_" ++ sanitize_filename_component label
      ++ lit "_" ++ format_1f ss ++ lit "s_" ++ format_1f es ++ lit "s" in
  (SLASH ∉ stem)
  /\ (exists d, output_video_path vp label ss es subj cam dir = d ++ stem ++ lit ".mp4"
                /\ (d = [] \/ last d = Some SLASH)
                /\ path_join dir (stem ++ lit ".mp4") = d ++ stem ++ lit ".mp4")
  /\ basename (output_video_path vp label ss es subj cam dir) = stem ++ lit ".mp4"
  /\ splitext (stem ++ lit ".mp4") = (stem, lit ".mp4").
Proof.
  intros stem.
  assert (Hbase : SLASH ∉ (splitext (basename vp)).1).
  { destruct (basename_spec vp) as (d & _ & Hb & _).
    destruct (splitext_spec (basename vp) Hb) as [Hsplit _].
    intros Hin. apply Hb. rewrite Hsplit. set_solver. }
  assert (Hlit : forall s : pystr, s = lit "_" \/ s = lit "s_" \/ s = lit "s" \/ s = lit ".mp4" ->
                 SLASH ∉ s).
  { intros s [->|[->|[->| ->]]]; compute_done. }
  assert (Hstem : SLASH ∉ stem).
  { unfold stem. rewrite !elem_of_app.
    pose proof (sanitize_no_slash subj). pose proof (sanitize_no_slash cam).
    pose proof (sanitize_no_slash label).
    pose proof (format_1f_no_slash ss). pose proof (format_1f_no_slash es).
    pose proof (Hlit (lit "_")). pose proof (Hlit (lit "s_")). pose proof (Hlit (lit "s")).
    intuition. }
  assert (Hname : SLASH ∉ stem ++ lit ".mp4").
  { rewrite elem_of_app. pose proof (Hlit (lit ".mp4")). intuition. }
  assert (Hpath : output_video_path vp label ss es subj cam dir
                  = path_join dir (stem ++ lit ".mp4")).
  { unfold output_video_path, stem. rewrite <- !app_assoc. reflexivity. }
  assert (Hhead : head (stem ++ lit ".mp4") <> Some SLASH).
  { intros E. apply Hname. destruct (stem ++ lit ".mp4"); [done|].
    inversion E; subst. apply elem_of_cons. now left. }
  destruct (path_join_dir dir _ Hhead) as (d & Hd & Hdd).
  split; [exact Hstem|]. split; [|split].
  - exists d. rewrite Hpath, Hd. auto.
  - rewrite Hpath, Hd. now apply basename_app.
  - apply splitext_mp4; [exact Hstem|].
    exists UNDERSCORE. split; [|done]. unfold stem.
    rewrite elem_of_app. right. apply elem_of_cons. now left.
Qed.

(** X4: the output path is never the path of the source.  The stem of the
    output's file name is the stem of the source's followed by an
    underscore and more, so [process_video] cannot write over the video it
    reads. *)
Theorem output_path_differs_from_source vp label ss es subj cam dir :
  let op := output_video_path vp label ss es subj cam dir in
  (exists tail, (splitext (basename op)).1 = (splitext (basename vp)).1 ++ UNDERSCORE :: tail)
  /\ op <> vp.
Proof.
  intros op.
  destruct (output_video_path_name vp label ss es subj cam dir) as (_ & _ & Hb & Hs).
  fold op in Hb.
  assert (Hstem : exists tail,
           (splitext (basename op)).1 = (splitext (basename vp)).1 ++ UNDERSCORE :: tail).
  { rewrite Hb, Hs. cbn [fst]. eexists. reflexivity. }
  split; [exact Hstem|].
  intros E. destruct Hstem as (tail & Ht). rewrite E in Ht.
  apply (f_equal length) in Ht. rewrite length_app in Ht. cbn in Ht. lia.
Qed.
End Names.

(** In clip mode the loop writes the frames of the window that the source
    has, in order, each with the label drawn. *)
Lemma emitted_clip_stretch label s e fs : forall idx,
  emitted_frames label s e true fs idx =
  map (fun f => putText f label (50, 50) FONT_HERSHEY_SIMPLEX 1 (255, 255, 255) 2 LINE_AA)
    (take (Z.to_nat (e + 1 - Z.max s idx)) (drop (Z.to_nat (Z.max s idx - idx)) fs)).
Proof.
  induction fs as [|f fs IH]; intros idx.
  - cbn. now rewrite drop_nil, take_nil.
  - cbn [emitted_frames]. rewrite IH. unfold emits, overlay, is_in_labeled_segment.
    destruct (Z.leb_spec s idx) as [Hs|Hs].
    + replace (Z.max s idx) with idx by lia. replace (Z.max s (idx + 1)) with (idx + 1) by lia.
      rewrite !Z.sub_diag. cbn [Z.to_nat drop].
      destruct (Z.leb_spec idx e) as [He|He]; cbn [andb app].
      * replace (Z.to_nat (e + 1 - idx)) with (S (Z.to_nat (e + 1 - (idx + 1)))) by lia.
        reflexivity.
      * replace (Z.to_nat (e + 1 - idx)) with 0%nat by lia.
        replace (Z.to_nat (e + 1 - (idx + 1))) with 0%nat by lia. reflexivity.
    + cbn [andb app]. replace (Z.max s idx) with s by lia.
      replace (Z.max s (idx + 1)) with s by lia.
      replace (Z.to_nat (s - idx)) with (S (Z.to_nat (s - (idx + 1)))) by lia.
      reflexivity.
Qed.

Lemma feqb_zero x :
  feqb x (float_of_int 0) = match x with S754_zero _ => true | _ => false end.
Proof.
  change (float_of_int 0) with (S754_zero false). unfold feqb, SFeqb, SFcompare.
  destruct x as [[]|[]| |[] m e]; reflexivity.
Qed.


Section MoreOutcomes.
Context `{PyRuntime} (env : Env).

(** X5: in clip mode the output holds the frames of the source from index
    [max s 0] up to index [e], as far as the source has them, in reading
    order, each with the label drawn on it once. *)
Theorem clip_is_the_labelled_stretch vp raw ss es subj cam dir w v fw fh s e :
  let op := output_video_path vp (label_tag raw) ss es subj cam dir in
  os_path_exists env vp = true ->
  capture_opens env vp = Some v ->
  conversions v ss es = Ok (fw, fh, (s, e)) ->
  writer_opens env op mp4v (effective_fps v) (fw, fh) = true ->
  exists w' file,
    process_video env vp raw ss es subj cam dir true w = (Ok tt, w')
    /\ files w' !! op = Some file
    /\ vf_frames file =
         map (fun f => putText f (label_tag raw) (50, 50) FONT_HERSHEY_SIMPLEX 1
                         (255, 255, 255) 2 LINE_AA)
           (take (Z.to_nat (e + 1 - Z.max s 0)) (drop (Z.to_nat (Z.max s 0)) (frames v))).
Proof.
  intros op Hex Hcap Hconv Hout.
  eexists _, _. split; [eapply process_video_streams; eassumption|].
  cbn [files vf_frames]. fold op. split; [apply lookup_insert_eq|].
  rewrite emitted_clip_stretch. now rewrite Z.sub_0_r.
Qed.

(** X6: the output is written with the codec [mp4v] (the integer
    0x7634706d), with the width and height the capture reports, truncated,
    and at the frame rate the capture reports; when that rate is a zero, of
    either sign, the window is computed and the file written at 30 frames
    per second and an error is logged; for any other rate the run logs no
    such error. *)
Theorem output_file_format vp raw ss es subj cam dir clip w v fw fh s e :
  let op := output_video_path vp (label_tag raw) ss es subj cam dir in
  os_path_exists env vp = true ->
  capture_opens env vp = Some v ->
  conversions v ss es = Ok (fw, fh, (s, e)) ->
  writer_opens env op mp4v (effective_fps v) (fw, fh) = true ->
  exists w' file,
    process_video env vp raw ss es subj cam dir clip w = (Ok tt, w')
    /\ files w' !! op = Some file
    /\ vf_fourcc file = 1983148141
    /\ int_of_float (CAP_PROP_FRAME_WIDTH v) = Ok (vf_frameSize file).1
    /\ int_of_float (CAP_PROP_FRAME_HEIGHT v) = Ok (vf_frameSize file).2
    /\ match CAP_PROP_FPS v with
       | S754_zero _ =>
           vf_fps file = float_of_int 30
           /\ frame_window ss es (float_of_int 30) = Ok (s, e)
           /\ (ERROR, NoFps vp) ∈ log w'
       | fps =>
           vf_fps file = fps
           /\ frame_window ss es fps = Ok (s, e)
           /\ ((ERROR, NoFps vp) ∈ log w' -> (ERROR, NoFps vp) ∈ log w)
       end.
Proof.
  intros op Hex Hcap Hconv Hout.
  eexists _, _. split; [eapply process_video_streams; eassumption|].
  cbn [files vf_frames vf_fourcc vf_frameSize vf_fps log fst snd]. fold op.
  split; [apply lookup_insert_eq|]. split; [reflexivity|].
  unfold conversions in Hconv.
  destruct (int_of_float (CAP_PROP_FRAME_WIDTH v)) as [fw'|]; [|discriminate].
  destruct (int_of_float (CAP_PROP_FRAME_HEIGHT v)) as [fh'|]; [|discriminate].
  destruct (frame_window ss es (effective_fps v)) as [win|] eqn:Hwin; [|discriminate].
  inversion Hconv; subst. do 2 (split; [reflexivity|]).
  unfold effective_fps, fps_errors in *. rewrite feqb_zero in *.
  assert (Hlabel : (ERROR, NoFps vp) ∉ label_warnings raw).
  { unfold label_warnings. destruct (py_int raw) as [c|]; [destruct (LABEL_MAP !! c)|];
      intros E; repeat (apply elem_of_cons in E as [E|E]; [discriminate|]);
      now apply elem_of_nil in E. }
  destruct (CAP_PROP_FPS v) as [sg|sg| |sg m e'];
    (split; [reflexivity|]); (split; [exact Hwin|]).
  1: { rewrite !elem_of_app. right; right; left. apply elem_of_cons. now left. }
  all: rewrite !elem_of_app; intros [E|[E|[E|E]]]; [exact E|now destruct Hlabel
         |now apply elem_of_nil in E|].
  all: exfalso; destruct clip, (0 <? _);
         repeat (apply elem_of_cons in E as [E|E]; [discriminate|]);
         now apply elem_of_nil in E.
Qed.


(** X8: when [process_video] returns, the last line of the log tells what
    it did.  "Successfully saved" names the output path, and the file there
    has at least one frame; "No frames were written" names the output path,
    and the file there exists and is empty; the three errors mean that the
    files are as before (the source does not exist, the capture did not
    open, the writer did not open).  No other line is last. *)
Theorem last_line_tells_the_outcome vp raw ss es subj cam dir clip w w' :
  process_video env vp raw ss es subj cam dir clip w = (Ok tt, w') ->
  let op := output_video_path vp (label_tag raw) ss es subj cam dir in
  match last (log w') with
  | Some (INFO, Saved p) =>
      p = op /\ exists file, files w' !! op = Some file /\ vf_frames file <> []
  | Some (WARNING, NoFramesWritten p) =>
      p = op /\ exists file, files w' !! op = Some file /\ vf_frames file = []
  | Some (ERROR, VideoNotFound p) =>
      p = vp /\ os_path_exists env vp = false /\ files w' = files w
  | Some (ERROR, CouldNotOpenVideo p) =>
      p = vp /\ capture_opens env vp = None /\ files w' = files w
  | Some (ERROR, CouldNotOpenWriter p) => p = op /\ files w' = files w
  | _ => False
  end.
Proof.
  intros Hrun op.
  destruct (process_video_cases env vp raw ss es subj cam dir clip w)
    as [[E Hr]|[(E1 & E & Hr)|[(v & x & E1 & E2 & E3 & Hr)|[(v & fw & fh & s & e & E1 & E2 & E3 & _ & Hr)
       |(v & fw & fh & s & e & E1 & E2 & E3 & _ & Hr)]]]];
    cbv zeta in Hr; rewrite Hr in Hrun; inversion Hrun; subst w'; clear Hrun Hr;
    cbn [add_log log files].
  - rewrite !app_assoc, last_snoc. auto.
  - rewrite !app_assoc, last_snoc. auto.
  - rewrite !app_assoc, last_snoc. auto.
  - fold op.
    rewrite !last_app. cbn [last].
    destruct (Z.ltb_spec 0 (Z.of_nat (length (emitted_frames (label_tag raw) s e clip
                                                 (frames v) 0)))) as [Hlen|Hlen];
      (split; [reflexivity|]); eexists; (split; [apply lookup_insert_eq|]); cbn [vf_frames].
    + intros E. rewrite E in Hlen. cbn in Hlen. lia.
    + apply length_zero_iff_nil. lia.
Qed.
End MoreOutcomes.

Section Collisions.
Context `{PyRuntime}.

(** X9: the last writer wins.  When two calls of [process_video] have
    the same output path (as when two rows differ only in characters the
    sanitizer maps to the same one, or in times that agree to one decimal
    place) and the second call opens its writer, the files after both calls
    are the files after the second alone: what the first wrote is lost. *)
Theorem last_writer_wins env1 env2 vp1 raw1 ss1 es1 subj1 cam1 clip1
    vp2 raw2 ss2 es2 subj2 cam2 clip2 dir w v fw fh s e :
  let op := output_video_path vp2 (label_tag raw2) ss2 es2 subj2 cam2 dir in
  let first := process_video env1 vp1 raw1 ss1 es1 subj1 cam1 dir clip1 in
  let second := process_video env2 vp2 raw2 ss2 es2 subj2 cam2 dir clip2 in
  output_video_path vp1 (label_tag raw1) ss1 es1 subj1 cam1 dir = op ->
  os_path_exists env2 vp2 = true ->
  capture_opens env2 vp2 = Some v ->
  conversions v ss2 es2 = Ok (fw, fh, (s, e)) ->
  writer_opens env2 op mp4v (effective_fps v) (fw, fh) = true ->
  files (second (first w).2).2 = files (second w).2.
Proof.
  intros op first second Hop Hex Hcap Hconv Hout. subst first second. cbn beta.
  rewrite !(process_video_streams env2 vp2 raw2 ss2 es2 subj2 cam2 dir clip2 _ _ _ _ _ _
              Hex Hcap Hconv Hout).
  cbn [snd files]. fold op.
  destruct (process_video_cases env1 vp1 raw1 ss1 es1 subj1 cam1 dir clip1 w)
    as [[_ ->]|[(_ & _ & ->)|[(v' & x & _ & _ & _ & ->)|[(v' & fw' & fh' & s' & e' & _ & _ & _ & _ & ->)
       |(v' & fw' & fh' & s' & e' & _ & _ & _ & _ & ->)]]]];
    cbn [snd add_log files]; try reflexivity.
  rewrite Hop. apply insert_insert_eq.
Qed.
End Collisions.

(** ** The rows of [main] *)

Section Rows.
Context `{PyRuntime}.

(** A row that leads to no call is skipped with one warning. *)
Lemma process_row_skips args env i row s :
  request_of args row = None ->
  exists msg,
    process_row args env i row s = main_logging WARNING msg s
    /\ (msg = IncorrectNumberOfColumns (i + 1) (length row) row /\ length row <> 6%nat
        \/ (exists path label start_str end_str subject cam start_time end_time,
              row = [path; label; start_str; end_str; subject; cam]
              /\ py_float start_str = Some start_time
              /\ py_float end_str = Some end_time
              /\ fltb start_time (float_of_int 0) || fltb end_time (float_of_int 0)
                 || fltb end_time start_time = true
              /\ msg = InvalidStartEndTimes (i + 1) start_time end_time row)
        \/ (exists str,
              length row = 6%nat /\ py_float str = None
              /\ (row !! 2%nat = Some str \/ row !! 3%nat = Some str)
              /\ msg = DataConversionError (i + 1) (CouldNotConvertToFloat str) row)).
Proof.
  intros Hrq. unfold process_row, row_body. unfold request_of in Hrq.
  destruct row as [|f1 [|f2 [|f3 [|f4 [|f5 [|f6 [|f7 row]]]]]]];
    try (eexists; split; [reflexivity|]; left; split; [reflexivity|cbn; lia]).
  destruct (py_float f3) as [st|] eqn:H3.
  2: { eexists; split; [reflexivity|]. right; right. exists f3. cbn. auto. }
  destruct (py_float f4) as [et|] eqn:H4.
  2: { eexists; split; [reflexivity|]. right; right. exists f4. cbn. auto. }
  destruct (fltb st (float_of_int 0) || fltb et (float_of_int 0) || fltb et st) eqn:Hck;
    [|discriminate].
  eexists; split; [reflexivity|]. right; left.
  exists f1, f2, f3, f4, f5, f6, st, et. auto.
Qed.

(** A row that leads to a call runs it, and reports the exception it
    raises. *)
Lemma process_row_runs args env i row s rq :
  request_of args row = Some rq ->
  process_row args env i row s =
  match run_request args env rq (world s) with
  | (Ok _, w) => set_world w s
  | (Raised ValueError, w) =>
      main_logging WARNING
        (DataConversionError (i + 1) (RaisedByProcessVideo ValueError) row) (set_world w s)
  | (Raised OverflowError, w) =>
      main_logging ERROR
        (UnexpectedError (i + 1) (RaisedByProcessVideo OverflowError) row) (set_world w s)
  end.
Proof.
  intros Hrq. unfold process_row, row_body. unfold request_of in Hrq.
  destruct row as [|f1 [|f2 [|f3 [|f4 [|f5 [|f6 [|f7 row]]]]]]]; try discriminate.
  destruct (py_float f3) as [st|]; [|discriminate].
  destruct (py_float f4) as [et|]; [|discriminate].
  destruct (fltb st (float_of_int 0) || fltb et (float_of_int 0) || fltb et st);
    [discriminate|].
  inversion Hrq; subst. unfold run_request. cbn [rq_video_path rq_label rq_start rq_end
    rq_subject rq_cam].
  destruct (process_video _ _ _ _ _ _ _ _ _ _) as [[u|[|]] w]; reflexivity.
Qed.

(** What one row does to the session. *)
Lemma process_row_effect args env i row s :
  let s' := process_row args env i row s in
  directories s' = directories s
  /\ ((world s' = world s /\ request_of args row = None
       /\ exists msg,
            journal s' = journal s ++ [(length (log (world s)), (WARNING, msg))]
            /\ forall n, reports_exception (n, (WARNING, msg)) = false)
      \/ exists rq,
           request_of args row = Some rq
           /\ world s' = (run_request args env rq (world s)).2
           /\ match (run_request args env rq (world s)).1 with
              | Ok _ => journal s' = journal s
              | Raised ValueError =>
                  journal s' = journal s
                    ++ [(length (log (world s')),
                         (WARNING, DataConversionError (i + 1)
                                     (RaisedByProcessVideo ValueError) row))]
              | Raised OverflowError =>
                  journal s' = journal s
                    ++ [(length (log (world s')),
                         (ERROR, UnexpectedError (i + 1)
                                   (RaisedByProcessVideo OverflowError) row))]
              end).
Proof.
  intros s'. subst s'. destruct (request_of args row) as [rq|] eqn:Hrq.
  - rewrite (process_row_runs _ _ _ _ _ _ Hrq).
    destruct (run_request args env rq (world s)) as [[u|[|]] w] eqn:Hrun;
      (split; [reflexivity|]); right; exists rq; rewrite ?Hrun; cbn [fst snd];
      (split; [reflexivity|]); (split; [reflexivity|]); reflexivity.
  - destruct (process_row_skips args env i row s Hrq) as (msg & -> & Hmsg).
    split; [reflexivity|]. left. repeat split. exists msg. split; [reflexivity|].
    intros n.
    destruct Hmsg as [[-> _]|[(? & ? & ? & ? & ? & ? & ? & ? & _ & _ & _ & _ & ->)
                             |(? & _ & _ & _ & ->)]]; reflexivity.
Qed.
End Rows.

Section Batch.
Context `{PyRuntime}.

(** What a call does to the world: it adds lines to the log, at least one
    when it returns; it creates or replaces its output file or leaves the
    files alone; the handles are as before when it returns, and one more
    capture is open when it raises. *)
Lemma run_request_effect args env rq w :
  let r := run_request args env rq w in
  (exists entries, log r.2 = log w ++ entries /\ (r.1 = Ok tt -> entries <> []))
  /\ (files r.2 = files w
      \/ exists file, files r.2 = <[ request_output args rq := file ]> (files w))
  /\ open_writers r.2 = open_writers w
  /\ match r.1 with
     | Ok _ => open_captures r.2 = open_captures w
     | Raised _ => open_captures r.2 = rq_video_path rq :: open_captures w
     end.
Proof.
  intros r. subst r. unfold run_request, request_output.
  destruct (process_video_cases env (rq_video_path rq) (rq_label rq) (rq_start rq)
              (rq_end rq) (rq_subject rq) (rq_cam rq) (output_dir args) (clip_only args) w)
    as [[_ ->]|[(_ & _ & ->)|[(v & x & _ & _ & _ & ->)|[(v & fw & fh & s & e & _ & _ & _ & _ & ->)
       |(v & fw & fh & s & e & _ & _ & _ & _ & ->)]]]];
    cbn [fst snd add_log log files open_writers open_captures].
  - split; [|auto]. eexists. split; [reflexivity|]. intros _. now destruct (label_warnings _).
  - split; [|auto]. eexists. split; [reflexivity|]. intros _. now destruct (label_warnings _).
  - split; [|auto]. eexists. split; [reflexivity|]. discriminate.
  - split; [|auto]. eexists. split; [reflexivity|]. intros _.
    destruct (label_warnings _); [|done]. now destruct (fps_errors _ _).
  - split; [|split; [right; eauto|auto]]. eexists. split; [reflexivity|]. intros _.
    destruct (label_warnings _); [|done]. now destruct (fps_errors _ _).
Qed.

(** The output of a request lies in the output directory and is an
    [.mp4] file. *)
Lemma request_output_name args rq :
  exists stem,
    request_output args rq = path_join (output_dir args) (stem ++ lit ".mp4")
    /\ (SLASH ∉ stem).
Proof.
  unfold request_output.
  destruct (output_video_path_name (rq_video_path rq) (label_tag (rq_label rq))
              (rq_start rq) (rq_end rq) (rq_subject rq) (rq_cam rq) (output_dir args))
    as (Hs & (d & Hop & _ & Hj) & _).
  eexists. split; [|exact Hs]. now rewrite Hj.
Qed.

Lemma process_rows_files args host rows : forall i s,
  let s' := process_rows args host rows i s in
  (forall p, is_Some (files (world s) !! p) -> is_Some (files (world s') !! p))
  /\ (forall p, files (world s') !! p <> files (world s) !! p ->
        exists j rq, (j, rq) ∈ requests args rows i /\ p = request_output args rq).
Proof.
  induction rows as [|row rows IH]; intros i s; cbn [process_rows requests].
  - split; [auto|]. intros p Hp. now destruct Hp.
  - destruct (IH (S i) (process_row args (at_row host i) i row s)) as [IH1 IH2].
    destruct (process_row_effect args (at_row host i) i row s)
      as (_ & [(Hw & Hrq & _)|(rq & Hrq & Hw & _)]); rewrite Hrq.
    + rewrite Hw in IH1, IH2. split; [exact IH1|]. exact IH2.
    + destruct (run_request_effect args (at_row host i) rq (world s))
        as (_ & Hfiles & _). rewrite <- Hw in Hfiles.
      split.
      * intros p Hp. apply IH1. destruct Hfiles as [->|(file & ->)]; [done|].
        destruct (decide (p = request_output args rq)) as [->|Hne].
        -- rewrite lookup_insert_eq. eauto.
        -- now rewrite lookup_insert_ne.
      * intros p Hp.
        destruct (decide (p = request_output args rq)) as [->|Hne].
        -- exists i, rq. split; [apply elem_of_cons; now left|done].
        -- assert (Hsame : files (world (process_row args (at_row host i) i row s)) !! p
                           = files (world s) !! p).
           { destruct Hfiles as [->|(file & ->)]; [done|]. now rewrite lookup_insert_ne. }
           rewrite <- Hsame in Hp.
           destruct (IH2 p Hp) as (j & rq' & Hin & ->).
           exists j, rq'. split; [|done]. apply elem_of_cons. now right.
Qed.

(** X10: [main] removes no file, and every path at which the files differ
    after [main] is the output directory joined with a name that has no
    slash and ends in [.mp4]: [main] writes nowhere but directly in the
    output directory. *)
Theorem main_writes_only_into_output_dir args host s :
  let s' := (main args host s).2 in
  (forall p, is_Some (files (world s) !! p) -> is_Some (files (world s') !! p))
  /\ (forall p, files (world s') !! p <> files (world s) !! p ->
        exists stem,
          p = path_join (output_dir args) (stem ++ lit ".mp4") /\ (SLASH ∉ stem)).
Proof.
  intros s'. subst s'. unfold main.
  destruct (negb (os_path_exists (at_start host) (csv_file args)));
    [cbn; split; [auto|intros p Hp; now destruct Hp]|].
  destruct (negb (os_path_exists (at_start host) (output_dir args)));
    [destruct (makedirs_succeeds host (output_dir args))|].
  2: { cbn; split; [auto|intros p Hp; now destruct Hp]. }
  all: destruct (csv host) as [|e|rows [e|]];
    cbn [snd main_logging makedirs world];
    try (split; [auto|intros p Hp; now destruct Hp]).
  all: match goal with
       | |- context [process_rows ?a ?h ?rs 0 ?s0] =>
           destruct (process_rows_files a h rs 0%nat s0) as [H1 H2];
           cbn [main_logging makedirs world] in H1, H2
       end.
  all: split; [exact H1|]; intros p Hp; destruct (H2 p Hp) as (j & rq & _ & ->);
    apply request_output_name.
Qed.

End Batch.

Section Batch2.
Context `{PyRuntime}.


(** X12: no row passes in silence: over the rows the loop of [main]
    processes, from whatever index and session, the journal of [main] and
    the log of [process_video] together gain at least one line for each
    row. *)
Theorem every_row_leaves_a_line args host rows : forall i s,
  (length (journal s) + length (log (world s)) + length rows
   <= length (journal (process_rows args host rows i s))
      + length (log (world (process_rows args host rows i s))))%nat.
Proof.
  induction rows as [|row rows IH]; intros i s; cbn [process_rows length]; [lia|].
  specialize (IH (S i) (process_row args (at_row host i) i row s)).
  destruct (process_row_effect args (at_row host i) i row s)
    as (_ & [(Hw & _ & msg & Hj & _)|(rq & _ & Hw & Hj)]).
  - rewrite Hw, Hj, length_app in IH. cbn [length] in IH. lia.
  - destruct (run_request_effect args (at_row host i) rq (world s))
      as ((entries & Hlog & Hne) & _). rewrite <- Hw in Hlog.
    rewrite Hlog, length_app in IH.
    destruct (run_request args (at_row host i) rq (world s)).1 as [[]|[|]].
    + rewrite Hj in IH. destruct entries; [now destruct Hne|]. cbn [length] in IH. lia.
    + rewrite Hj, length_app in IH. cbn [length] in IH. lia.
    + rewrite Hj, length_app in IH. cbn [length] in IH. lia.
Qed.


End Batch2.

(** *** Times that pass the test of line 173 *)



Section Accepted.
Context `{PyRuntime}.

End Accepted.

(** *** The suffix option *)

Lemma split_elem sep s : forall comp x, comp ∈ split sep s -> x ∈ comp -> x ∈ s.
Proof.
  induction s as [|c s IH]; intros comp x Hc Hx; cbn [split] in Hc.
  - apply list_elem_of_singleton in Hc. now subst.
  - destruct (c =? sep)%N.
    + apply elem_of_cons in Hc as [->|Hc]; [now apply elem_of_nil in Hx|].
      apply elem_of_cons. right. eapply IH; eassumption.
    + destruct (split sep s) as [|comp0 comps] eqn:Hsp.
      * apply list_elem_of_singleton in Hc. subst.
        apply list_elem_of_singleton in Hx. subst. apply elem_of_cons. now left.
      * apply elem_of_cons in Hc as [->|Hc].
        -- apply elem_of_cons in Hx as [->|Hx]; apply elem_of_cons; [now left|right].
           eapply IH; [|exact Hx]. apply elem_of_cons. now left.
        -- apply elem_of_cons. right. eapply IH; [|exact Hx]. apply elem_of_cons. now right.
Qed.

(** X16: the dot of [--video_suffix] is optional: a suffix that is not
    empty and has no dot leads to the same path as that suffix with a dot
    before it. *)
Theorem suffix_dot_is_optional csv dir base suffix clip path :
  suffix <> [] -> DOT ∉ suffix ->
  video_path_to_process
    {| csv_file := csv; output_dir := dir; video_base_dir := base;
       video_suffix := Some suffix; clip_only := clip |} path
  = video_path_to_process
      {| csv_file := csv; output_dir := dir; video_base_dir := base;
         video_suffix := Some (DOT :: suffix); clip_only := clip |} path.
Proof.
  intros Hne Hdot. unfold video_path_to_process. cbn [video_suffix video_base_dir].
  destruct suffix as [|c sfx]; [done|].
  assert (Hc : startswith DOT (c :: sfx) = false).
  { cbn. apply N.eqb_neq. intros ->. apply Hdot. apply elem_of_cons. now left. }
  rewrite Hc. cbn [negb andb].
  rewrite bool_decide_eq_false_2; [reflexivity|].
  intros Hin. apply Hdot.
  destruct (last (split SLASH (c :: sfx))) as [comp|] eqn:Hl;
    [|now apply elem_of_nil in Hin].
  cbn [default] in Hin. eapply split_elem; [|exact Hin].
  apply last_Some in Hl as [l' ->]. apply elem_of_app. right. apply elem_of_cons. now left.
Qed.

Section Batch3.
Context `{PyRuntime}.


End Batch3.

(** *** Examples *)


Lemma clip_of_scenario_A :
  exists w' file,
    @process_video latin1_runtime demo_env demo_path (lit "1")
      (float_of_int 1) (float_of_int 3) (lit "s1") (lit "cam1") (lit "out") true empty_world
    = (Ok tt, w')
    /\ files w' !! lit "out/walk_s1_cam1_fall_1.0s_3.0s.mp4" = Some file
    /\ vf_frames file
       = map (fun f => putText f (lit "fall") (50, 50) FONT_HERSHEY_SIMPLEX 1
                         (255, 255, 255) 2 LINE_AA)
           (map blank (seq 10 21)).
Proof.
  destruct (@clip_is_the_labelled_stretch latin1_runtime demo_env demo_path (lit "1")
              (float_of_int 1) (float_of_int 3) (lit "s1") (lit "cam1") (lit "out")
              empty_world demo_video 640 480 10 30)
    as (w' & file & Hrun & Hfile & Hfr);
    [reflexivity | reflexivity | exact scenario_A_conversions | reflexivity |].
  exists w', file. split; [exact Hrun|]. split; [exact Hfile|exact Hfr].
Defined.

Lemma silent_conversions :
  conversions silent_video (float_of_int 1) (float_of_int 3) = Ok (640, 480, (30, 90)).
Proof. vm_compute. reflexivity. Qed.

Lemma format_of_silent_video :
  exists w' file,
    @process_video latin1_runtime silent_env demo_path (lit "1")
      (float_of_int 1) (float_of_int 3) (lit "s1") (lit "cam1") (lit "out") false empty_world
    = (Ok tt, w')
    /\ files w' !! lit "out/walk_s1_cam1_fall_1.0s_3.0s.mp4" = Some file
    /\ vf_fps file = float_of_int 30
    /\ vf_frameSize file = (640, 480)
    /\ (ERROR, NoFps demo_path) ∈ log w'.
Proof.
  destruct (@output_file_format latin1_runtime silent_env demo_path (lit "1")
              (float_of_int 1) (float_of_int 3) (lit "s1") (lit "cam1") (lit "out") false
              empty_world silent_video 640 480 30 90)
    as (w' & file & Hrun & Hfile & _ & Hfw & Hfh & Hfps & _ & Hlog);
    [reflexivity | reflexivity | exact silent_conversions | reflexivity |].
  exists w', file. split; [exact Hrun|]. split; [exact Hfile|]. split; [exact Hfps|].
  split; [|exact Hlog].
  destruct (vf_frameSize file) as [a b]. cbn [fst snd] in Hfw, Hfh.
  inversion Hfw. inversion Hfh. reflexivity.
Defined.

Lemma scenario_A_returns :
  @process_video latin1_runtime demo_env demo_path (lit "1")
    (float_of_int 1) (float_of_int 3) (lit "s1") (lit "cam1") (lit "out") true empty_world
  = (Ok tt,
     (@process_video latin1_runtime demo_env demo_path (lit "1")
        (float_of_int 1) (float_of_int 3) (lit "s1") (lit "cam1") (lit "out") true
        empty_world).2).
Proof. vm_compute. reflexivity. Qed.

Lemma last_line_of_scenario_A :
  exists file,
    files (@process_video latin1_runtime demo_env demo_path (lit "1")
             (float_of_int 1) (float_of_int 3) (lit "s1") (lit "cam1") (lit "out") true
             empty_world).2
      !! lit "out/walk_s1_cam1_fall_1.0s_3.0s.mp4" = Some file
    /\ vf_frames file <> [].
Proof.
  exact (proj2 (@last_line_tells_the_outcome latin1_runtime demo_env demo_path (lit "1")
                  (float_of_int 1) (float_of_int 3) (lit "s1") (lit "cam1") (lit "out") true
                  empty_world _ scenario_A_returns)).
Defined.


Lemma suffix_mp4 :
  video_path_to_process
    {| csv_file := lit "labels.csv"; output_dir := lit "out"; video_base_dir := Some (lit "videos");
       video_suffix := Some (lit "mp4"); clip_only := false |} (lit "walk")
  = video_path_to_process
      {| csv_file := lit "labels.csv"; output_dir := lit "out";
         video_base_dir := Some (lit "videos");
         video_suffix := Some (lit ".mp4"); clip_only := false |} (lit "walk").
Proof.
  apply (suffix_dot_is_optional (lit "labels.csv") (lit "out") (Some (lit "videos"))
           (lit "mp4") false (lit "walk")).
  - discriminate.
  - compute_done.
Defined.


(** The batch of the examples: the first row is too short, the second
    raises in [process_video] and leaves its capture open, the third is
    written. *)
Lemma main_of_the_batch :
  (@main latin1_runtime demo_args demo_host empty_session).1 = Returned
  /\ map snd (journal (@main latin1_runtime demo_args demo_host empty_session).2)
     = [ (WARNING, IncorrectNumberOfColumns 1 2 [lit "videos/walk.mp4"; lit "1"]);
         (WARNING, DataConversionError 2 (RaisedByProcessVideo ValueError)
                     [lit "videos/walk.mp4"; lit "1"; lit "nan"; lit "3.0"; lit "s1";
                      lit "cam1"]) ]
  /\ open_captures (world (@main latin1_runtime demo_args demo_host empty_session).2)
     = [demo_path]
  /\ dom (files (world (@main latin1_runtime demo_args demo_host empty_session).2))
     = {[ lit "out/walk_s1_cam1_fall_1.0s_3.0s.mp4" ]}
  /\ directories (@main latin1_runtime demo_args demo_host empty_session).2 = [].
Proof. repeat split; vm_compute; reflexivity. Qed.

Lemma same_name_for_two_subjects :
  files (@process_video latin1_runtime demo_env demo_path (lit "1")
           (float_of_int 1) (float_of_int 3) (lit "s_1") (lit "cam1") (lit "out") true
           (@process_video latin1_runtime demo_env demo_path (lit "1")
              (float_of_int 1) (float_of_int 3) (lit "s 1") (lit "cam1") (lit "out") false
              empty_world).2).2
  = files (@process_video latin1_runtime demo_env demo_path (lit "1")
             (float_of_int 1) (float_of_int 3) (lit "s_1") (lit "cam1") (lit "out") true
             empty_world).2.
Proof.
  apply (@last_writer_wins latin1_runtime demo_env demo_env demo_path (lit "1")
           (float_of_int 1) (float_of_int 3) (lit "s 1") (lit "cam1") false
           demo_path (lit "1") (float_of_int 1) (float_of_int 3) (lit "s_1") (lit "cam1") true
           (lit "out") empty_world demo_video 640 480 10 30);
    [reflexivity | reflexivity | reflexivity | exact scenario_A_conversions | reflexivity].
Defined.
